(** * Match settlement of the table-tennis rating bot

    A shallow embedding of [bot.py] and [bot_db.py]: the Elo engine
    ([calculate_k_factor], [calculate_elo_change]), the SQLite-backed
    [Database] class and the three handlers that submit, confirm and
    expire a pending result.

    Conventions.
    - Python [float] is IEEE binary64, modelled by the primitive floats
      of the standard library; Python [int] is [Z].
    - A raised exception is the [Raise] case of [result].
    - A value of [Database] is the content of a database file in which
      the four tables exist. Every [Database] method opens a connection
      of its own and commits before it returns; a method that returns
      is one atomic step on the stored tables.
    - SQLite gives the write lock of a file to one connection at a
      time. A method that has written through its connection and,
      before its commit, calls another method that writes, makes the
      second connection wait for the lock; [sqlite3] gives up after
      its timeout and raises, the exception leaves the outer method
      before its commit, and what it had written is rolled back.
    - I/O failures of the storage engine and of the network are
      outside the model. *)

From Stdlib Require Import ZArith Floats.
From stdpp Require Import gmap strings list fin_maps.

Open Scope Z_scope.

(** ** Exceptions and results *)

Inductive exn : Set :=
| OverflowError
| ValueError
| ZeroDivisionError
| KeyError
| TypeError
| IntegrityError
| OperationalError.

Inductive result (A : Type) : Type :=
| Ok (a : A)
| Raise (e : exn).
Arguments Ok {A} a.
Arguments Raise {A} e.

#[global] Instance result_ret : MRet result := @Ok.
#[global] Instance result_bind : MBind result :=
  λ A B f m, match m with Ok a => f a | Raise e => Raise e end.
#[global] Instance result_fmap : FMap result :=
  λ A B f m, match m with Ok a => Ok (f a) | Raise e => Raise e end.

(** ** The numeric runtime *)

Module Py.

(** [float(n)] for a Python int: the nearest double, ties to even;
    [OverflowError] when the int is too large. *)
Definition float_of_int (n : Z) : result float :=
  let f := SF2Prim (SpecFloat.binary_normalize prec emax n 0 false) in
  if PrimFloat.is_infinity f then Raise OverflowError else Ok f.

(** [a / b] on two floats. *)
Definition float_div (a b : float) : result float :=
  if PrimFloat.eqb b 0%float then Raise ZeroDivisionError
  else Ok (PrimFloat.div a b).

(** [n / b] with an int on the left and a float on the right: the int
    is converted first. *)
Definition int_div_float (n : Z) (b : float) : result float :=
  a ← float_of_int n; float_div a b.

Definition SF_of_int (n : Z) : spec_float :=
  match n with
  | Z0 => S754_zero false
  | Zpos p => S754_finite false p 0
  | Zneg p => S754_finite true p 0
  end.

(** [a / b] on two ints (true division): the correctly rounded
    quotient. *)
Definition int_truediv (a b : Z) : result float :=
  if decide (b = 0) then Raise ZeroDivisionError
  else
    let f := SF2Prim (SpecFloat.SFdiv prec emax (SF_of_int a) (SF_of_int b)) in
    if PrimFloat.is_infinity f then Raise OverflowError else Ok f.

(** The integer part of [m * 2^e], dropping the fraction. *)
Definition trunc_mag (m : positive) (e : Z) : Z :=
  if decide (0 ≤ e) then Z.pos m * 2 ^ e else Z.pos m / 2 ^ (- e).

(** [m * 2^e] rounded to the nearest integer, ties to the even one. *)
Definition round_half_even_mag (m : positive) (e : Z) : Z :=
  if decide (0 ≤ e) then Z.pos m * 2 ^ e
  else
    let d := 2 ^ (- e) in
    let q := Z.pos m / d in
    let r := Z.pos m mod d in
    match 2 * r ?= d with
    | Lt => q
    | Gt => q + 1
    | Eq => if Z.even q then q else q + 1
    end.

Definition with_sign (s : bool) (n : Z) : Z := if s then - n else n.

(** [int(x)] on a float. *)
Definition int_of_float (x : float) : result Z :=
  match Prim2SF x with
  | S754_zero _ => Ok 0
  | S754_finite s m e => Ok (with_sign s (trunc_mag m e))
  | S754_infinity _ => Raise OverflowError
  | S754_nan => Raise ValueError
  end.

(** [round(x)] on a float, without [ndigits]: an int, ties to even. *)
Definition round (x : float) : result Z :=
  match Prim2SF x with
  | S754_zero _ => Ok 0
  | S754_finite s m e => Ok (with_sign s (round_half_even_mag m e))
  | S754_infinity _ => Raise OverflowError
  | S754_nan => Raise ValueError
  end.

(** The C library's [pow] is the one part of the runtime that is not
    given by IEEE 754; the model takes it as an interface. *)
Class Libm := { libm_pow : float → float → float }.

(** [10.0 ** w]: the interpreter settles a zero, NaN or infinite
    exponent itself and calls [pow] for the rest; a result out of
    range raises. *)
Definition pow10 `{Libm} (w : float) : result float :=
  if PrimFloat.eqb w 0%float then Ok 1%float
  else if PrimFloat.is_nan w then Ok w
  else if PrimFloat.is_infinity w then
    Ok (if PrimFloat.ltb 0%float w then PrimFloat.abs w else 0%float)
  else
    let ix := libm_pow 10%float w in
    if PrimFloat.is_infinity ix then Raise OverflowError else Ok ix.

End Py.

Export Py (Libm, libm_pow).

(** ** The Elo engine ([bot.py]) *)

Definition DEFAULT_RATING : Z := 1000.

(** K = 15 + |R1 - R2| / 100 *)
Definition calculate_k_factor (r1 r2 : Z) : result float :=
  let diff := Z.abs (r1 - r2) in
  q ← Py.int_div_float diff 100%float;
  mret (15 + q)%float.

(** The winner's expected score, named on its own so that the
    intermediate value can be spoken of. *)
Definition expected_score_winner `{Libm} (rating_winner rating_loser : Z)
  : result float :=
  x ← Py.int_div_float (rating_loser - rating_winner) 400%float;
  p ← Py.pow10 x;
  Py.float_div 1%float (1 + p)%float.

Definition raw_delta `{Libm} (rating_winner rating_loser : Z) : result float :=
  e ← expected_score_winner rating_winner rating_loser;
  k ← calculate_k_factor rating_winner rating_loser;
  mret (k * (1 - e))%float.

Definition calculate_elo_change `{Libm} (rating_winner rating_loser : Z)
  : result Z :=
  delta_r ← raw_delta rating_winner rating_loser;
  Py.round delta_r.

(** ** The stored tables ([bot_db.py]) *)

(** A row of [players], keyed by the Telegram id. [rating] is a REAL
    column. *)
Record player : Type := Player {
  p_username : string;
  p_rating : float;
  p_wins : Z;
  p_losses : Z;
  p_full_name : string
}.

(** A row of [pending_matches], keyed by its rowid. The three id lists
    are stored as comma-joined text; the model keeps the lists and applies
    [split_ids] where the text is read back. The timestamp column, which
    nothing reads, is left out. *)
Record pending_match : Type := PendingMatch {
  pm_match_type : string;
  pm_participants : list Z;
  pm_winner_ids : list Z;
  pm_loser_ids : list Z;
  pm_score : string
}.

(** A row of [matches], the history. *)
Record finished_match : Type := FinishedMatch {
  m_type : string;
  m_winner_ids : list Z;
  m_loser_ids : list Z;
  m_score : string
}.

Record Database : Type := Db {
  players : gmap Z player;
  user_mapping : gmap string Z;
  matches : gmap Z finished_match;
  pending_matches : gmap Z pending_match
}.

(** A database file whose four tables exist and hold no row. *)
Definition no_rows : Database :=
  {| players := ∅; user_mapping := ∅; matches := ∅; pending_matches := ∅ |}.

(** [init_db]: its first statement, the CREATE TABLE of [players],
    binds [DEFAULT_RATING] to a parameter inside the DEFAULT clause of a
    column. SQLite takes no parameter there and refuses the statement;
    the exception leaves [init_db] at once, so that none of the four
    tables is created and nothing is committed. *)
Definition init_db : result unit := Raise OperationalError.

(** Whether the connection of the method that calls has a write of its
    own that it has not committed. *)
Inductive caller : Type := Committed | Uncommitted.

(** The write lock of the file, asked for by the connection a method
    has just opened. While the caller's connection holds an
    uncommitted write the lock is not to be had: [sqlite3] waits for
    its timeout and raises that the database is locked. *)
Definition write_lock (outer : caller) : result unit :=
  match outer with
  | Committed => Ok tt
  | Uncommitted => Raise OperationalError
  end.

(** The rowid SQLite gives to a row inserted without one into a table
    declared [id INTEGER PRIMARY KEY] (no AUTOINCREMENT): one more than
    the largest rowid now in the table, and 1 for an empty table. *)
Definition next_rowid {V} (table : gmap Z V) : Z :=
  match (map_to_list table).*1 with
  | [] => 1
  | k :: ks => foldr Z.max k ks + 1
  end.

(** [[int(i) for i in s.split(',')]] on the text [",".join(map(str, ids))]:
    the ids again, except that the text of the empty list is the empty
    string, whose only piece is not a number. *)
Definition split_ids (ids : list Z) : result (list Z) :=
  match ids with
  | [] => Raise ValueError
  | _ => Ok ids
  end.

Definition update_user_mapping (db : Database) (user_id : Z) (username : string)
  : Database :=
  {| players := players db;
     user_mapping := <[username := user_id]> (user_mapping db);
     matches := matches db;
     pending_matches := pending_matches db |}.

Definition get_user_id_by_tag (db : Database) (username : string) : option Z :=
  user_mapping db !! username.

(** [username] is declared UNIQUE: a write that would give the name to a
    second row fails. *)
Definition username_taken (db : Database) (username : string) (but : Z) : bool :=
  bool_decide (map_Exists (λ i p, i ≠ but ∧ p_username p = username) (players db)).

Definition new_player (username full_name : string) : player :=
  {| p_username := username; p_rating := 1000%float;
     p_wins := 0; p_losses := 0; p_full_name := full_name |}.

Definition rename_player (username full_name : string) (p : player) : player :=
  {| p_username := username; p_rating := p_rating p;
     p_wins := p_wins p; p_losses := p_losses p; p_full_name := full_name |}.

Definition set_players (db : Database) (ps : gmap Z player) : Database :=
  {| players := ps; user_mapping := user_mapping db;
     matches := matches db; pending_matches := pending_matches db |}.

(** The UPDATE or INSERT is made on the method's connection; then
    [self.update_user_mapping] is called, which opens a connection of
    its own while that write is not committed. What comes back is the
    database to commit, or the exception, with nothing written. *)
Definition get_or_create_player (db : Database) (user_id : Z)
    (username full_name : string) : result Database :=
  if username_taken db username user_id then Raise IntegrityError
  else
    let ps :=
      match players db !! user_id with
      | Some p => <[user_id := rename_player username full_name p]> (players db)
      | None => <[user_id := new_player username full_name]> (players db)
      end in
    _ ← write_lock Uncommitted;
    Ok (update_user_mapping (set_players db ps) user_id username).

Definition get_player_rating (db : Database) (user_id : Z) : result Z :=
  match players db !! user_id with
  | Some row => Py.round (p_rating row)
  | None => Ok DEFAULT_RATING
  end.

(** The REAL value of an integer parameter in [rating + ?]. Integers
    bound to a statement are taken to fit SQLite's 64 bits. *)
Definition real_of_int (n : Z) : float :=
  SF2Prim (SpecFloat.binary_normalize prec emax n 0 false).

Definition adjust (delta_rating : Z) (p : player) : player :=
  let is_winner := bool_decide (delta_rating > 0) in
  {| p_username := p_username p;
     p_rating := (p_rating p + real_of_int delta_rating)%float;
     p_wins := if is_winner then p_wins p + 1 else p_wins p;
     p_losses := if is_winner then p_losses p else p_losses p + 1;
     p_full_name := p_full_name p |}.

(** An UPDATE ... WHERE id = ? changes the row with that id, if any. *)
Definition update_player_rating (db : Database) (user_id delta_rating : Z)
  : Database :=
  set_players db (alter (adjust delta_rating) user_id (players db)).

Definition set_pending (db : Database) (pm : gmap Z pending_match) : Database :=
  {| players := players db; user_mapping := user_mapping db;
     matches := matches db; pending_matches := pm |}.

Definition set_matches (db : Database) (ms : gmap Z finished_match) : Database :=
  {| players := players db; user_mapping := user_mapping db;
     matches := ms; pending_matches := pending_matches db |}.

Definition add_pending_match (db : Database) (match_type : string)
    (participants winner_ids loser_ids : list Z) (score : string)
  : Z * Database :=
  let match_id := next_rowid (pending_matches db) in
  let row := PendingMatch match_type participants winner_ids loser_ids score in
  (match_id, set_pending db (<[match_id := row]> (pending_matches db))).

(** The tuple [(match_type, winner_ids, loser_ids, score)], or [None]. *)
Definition get_pending_match (db : Database) (match_id : Z)
  : option (string * list Z * list Z * string) :=
  row ← pending_matches db !! match_id;
  Some (pm_match_type row, pm_winner_ids row, pm_loser_ids row, pm_score row).

Definition delete_pending_match (db : Database) (match_id : Z) : Database :=
  set_pending db (delete match_id (pending_matches db)).

(** The INSERT into [matches] is made on the method's connection; then
    [self.delete_pending_match] is called, which opens a connection of
    its own while that INSERT is not committed. What comes back is the
    database to commit, or the exception, with nothing written. *)
Definition finalize_match (db : Database) (match_id : Z)
    (winner_ids loser_ids : list Z) (score match_type : string) : result Database :=
  let row := FinishedMatch match_type winner_ids loser_ids score in
  let db1 := set_matches db (<[next_rowid (matches db) := row]> (matches db)) in
  _ ← write_lock Uncommitted;
  Ok (delete_pending_match db1 match_id).

Definition get_player_stats (db : Database) (user_id : Z)
  : result (option (string * Z * Z * Z)) :=
  match players db !! user_id with
  | Some row =>
      r ← Py.round (p_rating row);
      mret (Some (p_username row, r, p_wins row, p_losses row))
  | None => Ok None
  end.

Definition delete_match_by_id (db : Database) (match_id : Z) : bool * Database :=
  (bool_decide (is_Some (matches db !! match_id)),
   set_matches db (delete match_id (matches db))).

(** ** What a handler can do ([bot.py]) *)

(** The texts the bot sends, by what they say; how they are worded and
    how ids are shown as names is left to the rendering. *)
Inductive text : Type :=
| TxtGroupsOnly
| TxtBadFormat
| TxtNeedTwoPlayers
| TxtNeedFourPlayers
| TxtUserNotFound
| TxtNotUnique
| TxtAwaiting (match_type : string) (winner_ids loser_ids : list Z) (score : string)
| TxtAlreadyProcessed
| TxtOnlyParticipant
| TxtRecorded
| TxtConfirmed (match_id delta_r : Z) (winner_ids loser_ids : list Z) (score : string)
| TxtExpired (match_id : Z).

(** Calls of the Telegram API. [Reply] answers the message [to]; its
    [button], when there is one, carries [confirm_<pending_id>]. *)
Inductive tg_call : Type :=
| Reply (to : Z) (t : text) (button : option Z)
| CallbackAnswer (t : text)
| DeleteReplyMarkup
| SendMessage (chat_id : Z) (t : text) (reply_to_message_id : option Z).

(** The arguments [scheduler.add_job] is given for
    [delete_pending_match_job]. *)
Record job : Type := Job {
  job_match_id : Z;
  job_chat_id : Z;
  job_original_message_id : Z
}.

(** What a [run_date] can be, and what the date trigger of the
    scheduler makes of it: it takes a datetime or a text and raises
    [TypeError] for a number. *)
Inductive run_date : Type := Datetime | Text | Number.

Definition date_trigger (when : run_date) : result unit :=
  match when with
  | Datetime | Text => Ok tt
  | Number => Raise TypeError
  end.

(** One step of a handler: a [Database] method, the engine, a Telegram
    call, the scheduler, or the global [TARGET_CHAT_ID]. A step that can
    raise hands back a [result]. The engine has no effect; it is a step
    of its own so that a run records how often it is invoked and on
    what. *)
Inductive call : Type → Type :=
| DbGetUserIdByTag (username : string) : call (option Z)
| DbGetOrCreatePlayer (user_id : Z) (username full_name : string)
  : call (result unit)
| DbGetPlayerRating (user_id : Z) : call (result Z)
| DbUpdatePlayerRating (user_id delta_rating : Z) : call unit
| DbAddPendingMatch (match_type : string) (participants winner_ids loser_ids : list Z)
    (score : string) : call Z
| DbGetPendingMatch (match_id : Z) : call (option (string * list Z * list Z * string))
| DbDeletePendingMatch (match_id : Z) : call unit
| DbFinalizeMatch (match_id : Z) (winner_ids loser_ids : list Z)
    (score match_type : string) : call (result unit)
| DbDeleteMatchById (match_id : Z) : call bool
| EloChange (rating_winner rating_loser : Z) : call (result Z)
| Telegram (c : tg_call) : call unit
| AddJob (when : run_date) (j : job) : call (result unit)
| GetTargetChat : call Z
| SetTargetChat (chat_id : Z) : call unit.

(** A handler: a finite tree of steps that ends by returning or by
    raising. *)
Inductive prog (A : Type) : Type :=
| Ret (a : A)
| Fail (e : exn)
| Call {X : Type} (c : call X) (k : X → prog A).
Arguments Ret {A} a.
Arguments Fail {A} e.
Arguments Call {A X} c k.

Fixpoint prog_bind {A B : Type} (f : A → prog B) (p : prog A) : prog B :=
  match p with
  | Ret a => f a
  | Fail e => Fail e
  | Call c k => Call c (λ x, prog_bind f (k x))
  end.

#[global] Instance prog_mret : MRet prog := @Ret.
#[global] Instance prog_mbind : MBind prog := @prog_bind.

Definition do {X : Type} (c : call X) : prog X := Call c Ret.

Definition lift {A : Type} (r : result A) : prog A :=
  match r with Ok a => Ret a | Raise e => Fail e end.

(** A step that can raise, the exception going up to the caller. *)
Definition do_try {A : Type} (c : call (result A)) : prog A := do c ≫= lift.

Arguments do : simpl never.
Arguments do_try : simpl never.

(** [for x in l: body(x)] *)
Fixpoint for_each {A : Type} (l : list A) (body : A → prog unit) : prog unit :=
  match l with
  | [] => Ret tt
  | x :: l' => body x ≫= λ _, for_each l' body
  end.

(** [[f(x) for x in l]] *)
Fixpoint collect {A B : Type} (l : list A) (f : A → prog B) : prog (list B) :=
  match l with
  | [] => Ret []
  | x :: l' => y ← f x; ys ← collect l' f; Ret (y :: ys)
  end.

(** ** The state the handlers share *)

Record Bot : Type := MkBot {
  db : Database;
  jobs : list job;
  TARGET_CHAT_ID : Z
}.

Definition with_db (s : Bot) (d : Database) : Bot :=
  {| db := d; jobs := jobs s; TARGET_CHAT_ID := TARGET_CHAT_ID s |}.

(** One step, run to its end on the shared state. *)
Definition exec `{Libm} {X : Type} (c : call X) (s : Bot) : X * Bot :=
  match c in call X return X * Bot with
  | DbGetUserIdByTag u => (get_user_id_by_tag (db s) u, s)
  | DbGetOrCreatePlayer uid u n =>
      match get_or_create_player (db s) uid u n with
      | Ok d => (Ok tt, with_db s d)
      | Raise e => (Raise e, s)
      end
  | DbGetPlayerRating uid => (get_player_rating (db s) uid, s)
  | DbUpdatePlayerRating uid delta =>
      (tt, with_db s (update_player_rating (db s) uid delta))
  | DbAddPendingMatch mt ps ws ls sc =>
      let '(i, d) := add_pending_match (db s) mt ps ws ls sc in (i, with_db s d)
  | DbGetPendingMatch i => (get_pending_match (db s) i, s)
  | DbDeletePendingMatch i => (tt, with_db s (delete_pending_match (db s) i))
  | DbFinalizeMatch i ws ls sc mt =>
      match finalize_match (db s) i ws ls sc mt with
      | Ok d => (Ok tt, with_db s d)
      | Raise e => (Raise e, s)
      end
  | DbDeleteMatchById i =>
      let '(b, d) := delete_match_by_id (db s) i in (b, with_db s d)
  | EloChange rw rl => (calculate_elo_change rw rl, s)
  | Telegram _ => (tt, s)
  | AddJob when j =>
      match date_trigger when with
      | Ok _ =>
          (Ok tt,
           {| db := db s; jobs := jobs s ++ [j]; TARGET_CHAT_ID := TARGET_CHAT_ID s |})
      | Raise e => (Raise e, s)
      end
  | GetTargetChat => (TARGET_CHAT_ID s, s)
  | SetTargetChat c =>
      (tt, {| db := db s; jobs := jobs s; TARGET_CHAT_ID := c |})
  end.

(** A step that was made, for the record of a run. *)
Inductive made : Type :=
| Made (X : Type) (c : call X).
Arguments Made {X} c.

(** A handler run alone from start to end: what it returned or raised,
    the state it left, and the steps it made, in order. *)
Fixpoint run `{Libm} {A : Type} (p : prog A) (s : Bot) : result A * Bot * list made :=
  match p with
  | Ret a => (Ok a, s, [])
  | Fail e => (Raise e, s, [])
  | Call c k =>
      let '(x, s') := exec c s in
      let '(r, s'', t) := run (k x) s' in
      (r, s'', Made c :: t)
  end.

Definition engine_calls (t : list made) : list (Z * Z) :=
  omap (λ m, match m with Made (EloChange a b) => Some (a, b) | _ => None end) t.

Definition rating_updates (t : list made) : list (Z * Z) :=
  omap (λ m, match m with Made (DbUpdatePlayerRating u d) => Some (u, d) | _ => None end) t.

Definition telegram_calls (t : list made) : list tg_call :=
  omap (λ m, match m with Made (Telegram c) => Some c | _ => None end) t.

(** ** The handlers ([bot.py]) *)

(** The Python handlers return nothing; the model has them return which
    way they went, so that statements can name it. *)
Inductive submission : Type :=
| Rejected (why : text)
| Submitted (pending_id : Z).

Inductive settlement : Type :=
| AlreadySettled
| NotAuthorized
| Finalized (delta_r : Z).

Inductive expiry : Type :=
| Expired
| NothingToExpire.

(** An incoming command: the chat, the message id, and
    [message.text.split()]. *)
Record message : Type := Message {
  chat_type : string;
  chat_id : Z;
  message_id : Z;
  parts : list string
}.

(** [t.lstrip('@')] *)
Fixpoint lstrip_at (t : string) : string :=
  match t with
  | String a t' => if Ascii.eqb a (Ascii.ascii_of_nat 64) then lstrip_at t' else t
  | EmptyString => EmptyString
  end.

(** [s.endswith(suffix)] *)
Definition endswith (s suffix : string) : bool :=
  let n := String.length s in
  let m := String.length suffix in
  bool_decide (m ≤ n)%nat && String.eqb (String.substring (n - m) m s) suffix.

(** The loop over [all_tags] that fills [user_ids], or stops at the
    first tag nobody has. [None] stands for the early return. *)
Fixpoint resolve_tags (all_tags : list string) (user_ids : gmap string Z)
  : prog (option (gmap string Z)) :=
  match all_tags with
  | [] => Ret (Some user_ids)
  | tag :: rest =>
      user_id ← do (DbGetUserIdByTag tag);
      match user_id with
      | None => Ret None
      | Some uid => resolve_tags rest (<[tag := uid]> user_ids)
      end
  end.

(** [[user_ids[tag] for tag in tags]] *)
Definition ids_of_tags (user_ids : gmap string Z) (tags : list string)
  : prog (list Z) :=
  match mapM (λ tag, user_ids !! tag) tags with
  | Some ids => Ret ids
  | None => Fail KeyError
  end.

Definition reject (message : message) (why : text) : prog submission :=
  do (Telegram (Reply (message_id message) why None));; Ret (Rejected why).

(** [/new_result_1vs1] and [/new_result_2vs2]. The set [all_tags] is
    walked in the order of first occurrence. The run date given to
    [add_job] is [time.time() + 2 * 3600], a number. *)
Definition handle_new_result_command (message : message) : prog submission :=
  if negb (bool_decide (chat_type message ∈ ["group"; "supergroup"]%string)) then
    reject message TxtGroupsOnly
  else
    target ← do GetTargetChat;
    (if decide (target = 0) then do (SetTargetChat (chat_id message)) else Ret tt);;
    let parts := parts message in
    if decide (length parts < 4)%nat then reject message TxtBadFormat
    else
      let command := hd ""%string parts in
      let score := List.last parts ""%string in
      let tags := lstrip_at <$> removelast (tail parts) in
      let match_type := (if endswith command "1vs1" then "1vs1" else "2vs2")%string in
      if bool_decide (match_type = "1vs1"%string ∧ length tags ≠ 2%nat) then
        reject message TxtNeedTwoPlayers
      else if bool_decide (match_type = "2vs2"%string ∧ length tags ≠ 4%nat) then
        reject message TxtNeedFourPlayers
      else
        let all_tags := remove_dups tags in
        resolved ← resolve_tags all_tags ∅;
        match resolved with
        | None => reject message TxtUserNotFound
        | Some user_ids =>
            let winner_tags :=
              if bool_decide (match_type = "1vs1"%string) then take 1 tags
              else take 2 tags in
            let loser_tags :=
              if bool_decide (match_type = "1vs1"%string) then take 1 (drop 1 tags)
              else drop 2 tags in
            winner_ids ← ids_of_tags user_ids winner_tags;
            loser_ids ← ids_of_tags user_ids loser_tags;
            let participants_ids := winner_ids ++ loser_ids in
            if bool_decide (length (remove_dups participants_ids) ≠ length participants_ids)
            then reject message TxtNotUnique
            else
              pending_id ← do (DbAddPendingMatch match_type participants_ids
                                 winner_ids loser_ids score);
              do_try (AddJob Number
                        (Job pending_id (chat_id message) (message_id message)));;
              do (Telegram (Reply (message_id message)
                    (TxtAwaiting match_type winner_ids loser_ids score)
                    (Some pending_id)));;
              Ret (Submitted pending_id)
        end.

(** [sum(ratings) / len(ratings)] *)
Definition average (ratings : list Z) : result float :=
  Py.int_truediv (foldr Z.add 0 ratings) (Z.of_nat (length ratings)).

(** The press of the confirm button of [match_id] by [user_id], in the
    chat [chat_id]. *)
Definition process_match_confirmation (match_id user_id chat_id : Z)
  : prog settlement :=
  pending_match_data ← do (DbGetPendingMatch match_id);
  match pending_match_data with
  | None =>
      do (Telegram (CallbackAnswer TxtAlreadyProcessed));;
      do (Telegram DeleteReplyMarkup);;
      Ret AlreadySettled
  | Some (match_type, winner_ids_str, loser_ids_str, score) =>
      winner_ids ← lift (split_ids winner_ids_str);
      loser_ids ← lift (split_ids loser_ids_str);
      let participants := winner_ids ++ loser_ids in
      if bool_decide (user_id ∉ participants) then
        do (Telegram (CallbackAnswer TxtOnlyParticipant));;
        Ret NotAuthorized
      else
        winner_ratings ← collect winner_ids (λ uid, do_try (DbGetPlayerRating uid));
        loser_ratings ← collect loser_ids (λ uid, do_try (DbGetPlayerRating uid));
        avg_winner_rating ← lift (average winner_ratings);
        avg_loser_rating ← lift (average loser_ratings);
        int_avg_winner ← lift (Py.int_of_float avg_winner_rating);
        int_avg_loser ← lift (Py.int_of_float avg_loser_rating);
        delta_r ← do_try (EloChange int_avg_winner int_avg_loser);
        for_each winner_ids (λ uid, do (DbUpdatePlayerRating uid delta_r));;
        for_each loser_ids (λ uid, do (DbUpdatePlayerRating uid (- delta_r)));;
        do_try (DbFinalizeMatch match_id winner_ids loser_ids score match_type);;
        do (Telegram (CallbackAnswer TxtRecorded));;
        do (Telegram DeleteReplyMarkup);;
        do (Telegram (SendMessage chat_id
              (TxtConfirmed match_id delta_r winner_ids loser_ids score) None));;
        Ret (Finalized delta_r)
  end.

(** The scheduler's job, two hours after the report. *)
Definition delete_pending_match_job (match_id chat_id original_message_id : Z)
  : prog expiry :=
  pending_match_data ← do (DbGetPendingMatch match_id);
  match pending_match_data with
  | Some _ =>
      do (DbDeletePendingMatch match_id);;
      do (Telegram (SendMessage chat_id (TxtExpired match_id)
            (Some original_message_id)));;
      Ret Expired
  | None => Ret NothingToExpire
  end.

(** ** Two handlers at once

    A confirmation arrives through the web hook and the timer fires in
    the scheduler: two flows of control over one database file. Each of
    their steps is atomic, and the steps of the two may alternate in any
    order. *)

Inductive turn : Type := Confirmation | Timer.

(** The next step of a handler, if it has one left. *)
Definition step `{Libm} {A : Type} (p : prog A) (s : Bot) : prog A * Bot :=
  match p with
  | Call c k => let '(x, s') := exec c s in (k x, s')
  | _ => (p, s)
  end.

Fixpoint interleave `{Libm} {A B : Type} (schedule : list turn)
    (c : prog A) (t : prog B) (s : Bot) : prog A * prog B * Bot :=
  match schedule with
  | [] => (c, t, s)
  | Confirmation :: rest => let '(c', s') := step c s in interleave rest c' t s'
  | Timer :: rest => let '(t', s') := step t s in interleave rest c t' s'
  end.

(** What a handler has come to, once it has no step left. *)
Definition ended {A : Type} (p : prog A) : option (result A) :=
  match p with
  | Ret a => Some (Ok a)
  | Fail e => Some (Raise e)
  | Call _ _ => None
  end.

(** A handler that is sure to return a value in [R], whatever its
    remaining steps are answered. *)
Inductive surely {A : Type} (R : A → Prop) : prog A → Prop :=
| surely_ret (a : A) : R a → surely R (Ret a)
| surely_call (X : Type) (c : call X) (k : X → prog A) :
    (∀ x, surely R (k x)) → surely R (Call c k).

Definition is_pending (match_id : Z) (s : Bot) : Prop :=
  is_Some (pending_matches (db s) !! match_id).

(** A handler none of whose steps takes [match_id] out of the pending
    table. *)
Inductive leaves_pending `{Libm} {A : Type} (match_id : Z) : prog A → Prop :=
| leaves_ret (a : A) : leaves_pending match_id (Ret a)
| leaves_fail (e : exn) : leaves_pending match_id (Fail e)
| leaves_call (X : Type) (c : call X) (k : X → prog A) :
    (∀ s, is_pending match_id s → is_pending match_id (exec c s).2) →
    (∀ x, leaves_pending match_id (k x)) →
    leaves_pending match_id (Call c k).

(** A confirmation that cannot come to return [Finalized], on whatever
    states its remaining steps are made. *)
Inductive cannot_finalize `{Libm} : prog settlement → Prop :=
| cannot_ret (o : settlement) :
    (∀ delta_r, o ≠ Finalized delta_r) → cannot_finalize (Ret o)
| cannot_fail (e : exn) : cannot_finalize (Fail e)
| cannot_call (X : Type) (c : call X) (k : X → prog settlement) :
    (∀ s, cannot_finalize (k (exec c s).1)) → cannot_finalize (Call c k).

(** Of a confirmation and an expiry that have ended, exactly one went
    through. *)
Definition exactly_one (rc : result settlement) (rt : result expiry) : Prop :=
  ((∃ delta_r, rc = Ok (Finalized delta_r)) ∧ rt ≠ Ok Expired)
  ∨ ((∀ delta_r, rc ≠ Ok (Finalized delta_r)) ∧ rt = Ok Expired).

Definition at_least_one (rc : result settlement) (rt : result expiry) : Prop :=
  (∃ delta_r, rc = Ok (Finalized delta_r)) ∨ rt = Ok Expired.

(** *** Coroutines on one event loop

    Both handlers are coroutines. On one event loop a coroutine keeps
    control until it awaits, and the handlers await nothing but the
    Telegram calls. *)

Definition is_await {X : Type} (c : call X) : bool :=
  match c with
  | Telegram _ => true
  | _ => false
  end.

(** A handler run up to and with its next await. *)
Fixpoint to_next_await `{Libm} {A : Type} (p : prog A) (s : Bot) : prog A * Bot :=
  match p with
  | Call c k =>
      let '(x, s') := exec c s in
      if is_await c then (k x, s') else to_next_await (k x) s'
  | _ => (p, s)
  end.

Fixpoint take_turns `{Libm} {A B : Type} (schedule : list turn)
    (c : prog A) (t : prog B) (s : Bot) : prog A * prog B * Bot :=
  match schedule with
  | [] => (c, t, s)
  | Confirmation :: rest => let '(c', s') := to_next_await c s in take_turns rest c' t s'
  | Timer :: rest => let '(t', s') := to_next_await t s in take_turns rest c t' s'
  end.

(** *** Any two flows of control *)

(** What holds of a confirmation and a timer job for the same pending
    result at every point of their race: the confirmation cannot
    return [Finalized]; and the job is past its lookup and will expire
    the result, or the job has not started, the result is pending and
    no step of the confirmation removes it. *)
Definition race_invariant `{Libm} (match_id chat_id original_message_id : Z)
    (c : prog settlement) (t : prog expiry) (s : Bot) : Prop :=
  cannot_finalize c ∧
  (surely (λ o, o = Expired) t
   ∨ (t = delete_pending_match_job match_id chat_id original_message_id ∧
      is_pending match_id s ∧ leaves_pending match_id c)).

(** ** The states the bot can be in *)

(** What every row of [pending_matches] written by
    [handle_new_result_command] is like. *)
Record pending_ok (row : pending_match) : Prop := PendingOk {
  ok_winners : pm_winner_ids row ≠ [];
  ok_losers : pm_loser_ids row ≠ [];
  ok_sizes : length (pm_winner_ids row) = length (pm_loser_ids row);
  ok_unique : NoDup (pm_winner_ids row ++ pm_loser_ids row)
}.

Definition wf (s : Bot) : Prop :=
  ∀ match_id row, pending_matches (db s) !! match_id = Some row → pending_ok row.

Definition state_after `{Libm} {A : Type} (p : prog A) (s : Bot) : Bot := (run p s).1.2.

(** [update_player_info], given the names Telegram has for the user:
    what [get_or_create_player] hands back is kept, or the exception is
    logged and dropped. *)
Definition update_player_info (s : Bot) (user_id : Z) (username full_name : string)
  : Bot :=
  match get_or_create_player (db s) user_id username full_name with
  | Ok d => with_db s d
  | Raise _ => s
  end.

Definition without_job (s : Bot) (before after : list job) : Bot :=
  {| db := db s; jobs := before ++ after; TARGET_CHAT_ID := TARGET_CHAT_ID s |}.

(** One handler, run whole. [/start] and [/stats] write through
    [update_player_info] and may set [TARGET_CHAT_ID];
    [/delete_match] writes through [delete_match_by_id]; a job that
    fires leaves the job store. *)
Inductive handled `{Libm} : Bot → Bot → Prop :=
| handled_new_result s message :
    handled s (state_after (handle_new_result_command message) s)
| handled_confirmation s match_id user_id chat_id :
    handled s (state_after (process_match_confirmation match_id user_id chat_id) s)
| handled_timer s before j after :
    jobs s = before ++ j :: after →
    handled s (state_after
                 (delete_pending_match_job (job_match_id j) (job_chat_id j)
                    (job_original_message_id j))
                 (without_job s before after))
| handled_player s user_id username full_name :
    handled s (update_player_info s user_id username full_name)
| handled_target s chat_id :
    TARGET_CHAT_ID s = 0 →
    handled s {| db := db s; jobs := jobs s; TARGET_CHAT_ID := chat_id |}
| handled_delete_match s match_id :
    handled s (with_db s (delete_match_by_id (db s) match_id).2).

(** The states that handlers run one after the other lead to, from a
    given state. *)
Definition follows `{Libm} : Bot → Bot → Prop := rtc handled.

(** ** Notions the statements use *)

(** The sum of the rating changes that a run applied to the players
    [ids]. *)
Definition changes_to (ids : list Z) (t : list made) : Z :=
  foldr Z.add 0 ((filter (λ ud, ud.1 ∈ ids) (rating_updates t)).*2).

(** [a] is the arithmetic mean of [ratings], exactly. *)
Definition exact_mean (a : Z) (ratings : list Z) : Prop :=
  a * Z.of_nat (length ratings) = foldr Z.add 0 ratings.

(** What the engine is given for a team: the float mean, cut to an int. *)
Definition team_input (d : Database) (ids : list Z) : result Z :=
  ratings ← mapM (get_player_rating d) ids;
  avg ← average ratings;
  Py.int_of_float avg.

(** The updates of a settlement, in the order they are made. *)
Definition settlement_updates (winner_ids loser_ids : list Z) (delta_r : Z)
  : list (Z * Z) :=
  ((λ uid, (uid, delta_r)) <$> winner_ids) ++ ((λ uid, (uid, - delta_r)) <$> loser_ids).

Definition apply_updates (d : Database) (updates : list (Z * Z)) : Database :=
  foldl (λ d ud, update_player_rating d ud.1 ud.2) d updates.

(** The reads and writes of ratings, as steps of a run. *)
Definition rating_reads (ids : list Z) : list made :=
  (λ uid, Made (DbGetPlayerRating uid)) <$> ids.

Definition rating_writes (updates : list (Z * Z)) : list made :=
  (λ ud, Made (DbUpdatePlayerRating ud.1 ud.2)) <$> updates.

(** What a settlement works out before it writes: the two inputs of
    the engine, and the delta. *)
Definition settle `{Libm} (d : Database) (winner_ids loser_ids : list Z)
  : result (Z * Z * Z) :=
  aw ← team_input d winner_ids;
  al ← team_input d loser_ids;
  delta_r ← calculate_elo_change aw al;
  mret (aw, al, delta_r).

(** The steps of a confirmation that gets as far as
    [finalize_match], in order. *)
Definition confirmation_steps (match_id : Z) (row : pending_match)
    (aw al delta_r : Z) : list made :=
  Made (DbGetPendingMatch match_id)
  :: rating_reads (pm_winner_ids row) ++ rating_reads (pm_loser_ids row)
  ++ Made (EloChange aw al)
  :: rating_writes (settlement_updates (pm_winner_ids row) (pm_loser_ids row) delta_r)
  ++ [Made (DbFinalizeMatch match_id (pm_winner_ids row) (pm_loser_ids row)
              (pm_score row) (pm_match_type row))].

(** The database such a confirmation leaves. *)
Definition updated (d : Database) (row : pending_match) (delta_r : Z) : Database :=
  apply_updates d (settlement_updates (pm_winner_ids row) (pm_loser_ids row) delta_r).

(** The tags of a command: [[t.lstrip('@') for t in parts[1:-1]]]. *)
Definition tags_of (message : message) : list string :=
  lstrip_at <$> removelast (tail (parts message)).

(** The two doubles next to 10^-5: [pow] is off by less than one unit
    in the last place when it returns one of them. *)
Definition below_1e_5 : float := 0x1.4f8b588e368f0p-17%float.
Definition above_1e_5 : float := 0x1.4f8b588e368f1p-17%float.

Definition pow_within_one_ulp_at_minus_5 `{Libm} : Prop :=
  libm_pow 10%float (-5)%float = below_1e_5 ∨
  libm_pow 10%float (-5)%float = above_1e_5.

(** A [pow] for closed examples: 10 to a whole power, correctly
    rounded, and NaN elsewhere. *)
Definition pow_of_ten (x w : float) : float :=
  match Py.int_of_float w with
  | Ok n =>
      if PrimFloat.eqb x 10%float && PrimFloat.eqb (real_of_int n) w then
        if decide (0 ≤ n) then real_of_int (10 ^ n)
        else SF2Prim (SpecFloat.SFdiv prec emax (Py.SF_of_int 1) (Py.SF_of_int (10 ^ (- n))))
      else nan
  | Raise _ => nan
  end.

Definition whole_powers_of_ten : Libm := {| libm_pow := pow_of_ten |}.

(** States for closed examples, given row by row: four players at the
    default rating with their tags; then the state a report between
    two of them leaves, and the one a doubles report of the four
    leaves. *)
Definition four_players : Bot :=
  {| db :=
       {| players :=
            <[1 := new_player "ann" "Ann"]>
              (<[2 := new_player "bob" "Bob"]>
                 (<[3 := new_player "cyd" "Cyd"]>
                    (<[4 := new_player "dan" "Dan"]> ∅)));
          user_mapping :=
            <["ann"%string := 1]>
              (<["bob"%string := 2]>
                 (<["cyd"%string := 3]> (<["dan"%string := 4]> ∅)));
          matches := ∅;
          pending_matches := ∅ |};
     jobs := [];
     TARGET_CHAT_ID := 0 |}.

Definition singles_report : message :=
  Message "group" 77 500 ["/new_result_1vs1"; "@ann"; "@bob"; "11-9"]%string.

Definition doubles_report : message :=
  Message "group" 77 501 ["/new_result_2vs2"; "@ann"; "@bob"; "@cyd"; "@dan"; "11-9"]%string.

Definition one_pending : Bot :=
  state_after (H := whole_powers_of_ten) (handle_new_result_command singles_report)
    four_players.

Definition doubles_pending : Bot :=
  state_after (H := whole_powers_of_ten) (handle_new_result_command doubles_report)
    four_players.

Definition with_rating (rating : float) (p : player) : player :=
  {| p_username := p_username p; p_rating := rating;
     p_wins := p_wins p; p_losses := p_losses p; p_full_name := p_full_name p |}.

(** The doubles report again, with the second winner at 1001. *)
Definition uneven_doubles : Bot :=
  with_db doubles_pending
    (set_players (db doubles_pending)
       (alter (with_rating 1001%float) 2 (players (db doubles_pending)))).

(** The singles report again, with the winner at 3000. *)
Definition mismatch : Bot :=
  with_db one_pending
    (set_players (db one_pending)
       (alter (with_rating 3000%float) 1 (players (db one_pending)))).

(** The singles report again, with a stored rating that no rounding
    can turn into an integer. *)
Definition unrated : Bot :=
  with_db one_pending
    (set_players (db one_pending)
       (alter (with_rating infinity) 1 (players (db one_pending)))).

(** A report that names Ann on both sides. *)
Definition repeated_report : message :=
  Message "group" 77 502 ["/new_result_2vs2"; "@ann"; "@bob"; "@ann"; "@cyd"; "11-9"]%string.

(** The ledger operations on pending results, for the statement on
    ids. *)
Inductive ledger_op : Type :=
| CreatePending (match_type : string) (winner_ids loser_ids : list Z) (score : string)
| FinalizePending (match_id : Z)
| DiscardPending (match_id : Z).

(** A sequence of ledger operations, with the ids that the creations
    returned, in order. *)
Fixpoint ledger_run (ops : list ledger_op) (d : Database) : Database * list Z :=
  match ops with
  | [] => (d, [])
  | CreatePending mt ws ls sc :: rest =>
      let '(i, d1) := add_pending_match d mt (ws ++ ls) ws ls sc in
      let '(d2, ids) := ledger_run rest d1 in
      (d2, i :: ids)
  | FinalizePending i :: rest =>
      match get_pending_match d i with
      | Some (mt, ws, ls, sc) =>
          match finalize_match d i ws ls sc mt with
          | Ok d1 => ledger_run rest d1
          | Raise _ => ledger_run rest d
          end
      | None => ledger_run rest d
      end
  | DiscardPending i :: rest => ledger_run rest (delete_pending_match d i)
  end.

(** [ids] is strictly increasing. *)
Fixpoint increasing (ids : list Z) : Prop :=
  match ids with
  | i :: (j :: _) as rest => i < j ∧ increasing rest
  | _ => True
  end.

(** ** Notions for the rest of the handlers' behaviour *)

(** No two rows of [players] carry the same username. *)
Definition unique_usernames (d : Database) : Prop :=
  ∀ i j p q,
    players d !! i = Some p → players d !! j = Some q →
    p_username p = p_username q → i = j.

(** Every tag of [user_mapping] leads to a row of [players]. *)
Definition tags_registered (d : Database) : Prop :=
  ∀ tag uid, user_mapping d !! tag = Some uid → is_Some (players d !! uid).

(** Every participant of every pending result has a row in [players]. *)
Definition participants_registered (d : Database) : Prop :=
  ∀ match_id row uid,
    pending_matches d !! match_id = Some row →
    uid ∈ pm_winner_ids row ++ pm_loser_ids row →
    is_Some (players d !! uid).

(** The username a player has now is a tag, and it leads to that
    player. *)
Definition usernames_resolve (d : Database) : Prop :=
  ∀ uid p, players d !! uid = Some p → user_mapping d !! p_username p = Some uid.

(** What the tables keep in common under every handler. *)
Definition consistent (d : Database) : Prop :=
  unique_usernames d ∧ usernames_resolve d ∧ tags_registered d ∧
  participants_registered d.

(** The games a player has on record. *)
Definition games (p : player) : Z := p_wins p + p_losses p.

(** What [handle_stats] replies, by what it says: that the tag leads
    to nobody, that there is no row, the card with the name, the
    rounded rating, the counts and the share of wins in percent, or
    the line that says N/A and nothing else. *)
Inductive stats_reply : Type :=
| StatsUserNotFound
| StatsUnavailable
| StatsCard (username : string) (rating wins losses : Z) (percent : float)
| StatsNoGames.

(** The conditional expression that builds [response]: the adjacent
    string literals are joined first, so that the condition chooses
    between the whole card and the N/A line alone, and the division is
    evaluated only on the first branch. *)
Definition stats_response (username : string) (rating wins losses : Z)
  : result stats_reply :=
  if decide (wins + losses > 0) then
    q ← Py.int_truediv wins (wins + losses);
    mret (StatsCard username rating wins losses (q * 100)%float)
  else mret StatsNoGames.

(** [update_player_info] with what [get_chat_member] gave: the names,
    or nothing when the call failed. *)
Definition refresh_player (s : Bot) (user_id : Z) (member : option (string * string))
  : Bot :=
  match member with
  | Some (username, full_name) => update_player_info s user_id username full_name
  | None => s
  end.

(** [handle_stats] for the words [parts] of the message sent by
    [from_user]: the reply or the exception, and the state it leaves. *)
Definition handle_stats (s : Bot) (parts : list string) (from_user : Z)
    (member : option (string * string)) : result stats_reply * Bot :=
  let target_tag :=
    match parts with
    | [_; t] => Some (lstrip_at t)
    | _ => None
    end in
  let '(user_id, s1) :=
    match target_tag with
    | Some (String a t) => (get_user_id_by_tag (db s) (String a t), s)
    | _ => (Some from_user, refresh_player s from_user member)
    end in
  match user_id with
  | None => (Ok StatsUserNotFound, s1)
  | Some uid =>
      match get_player_stats (db s1) uid with
      | Raise e => (Raise e, s1)
      | Ok None => (Ok StatsUnavailable, s1)
      | Ok (Some (username, rating, wins, losses)) =>
          (stats_response username rating wins losses, s1)
      end
  end.

(** The match type a command word stands for, and the size of a team. *)
Definition match_type_of (command : string) : string :=
  (if endswith command "1vs1" then "1vs1" else "2vs2")%string.

Definition team_size_of (command : string) : nat :=
  if endswith command "1vs1" then 1%nat else 2%nat.

(** A handler that never writes [TARGET_CHAT_ID]. *)
Definition sets_target {X : Type} (c : call X) : bool :=
  match c with
  | SetTargetChat _ => true
  | _ => false
  end.

Inductive leaves_target {A : Type} : prog A → Prop :=
| target_ret (a : A) : leaves_target (Ret a)
| target_fail (e : exn) : leaves_target (Fail e)
| target_call (X : Type) (c : call X) (k : X → prog A) :
    sets_target c = false →
    (∀ x, leaves_target (k x)) →
    leaves_target (Call c k).

(** A command with a doubles word that is none of the bot's. *)
Definition triples_report : message :=
  Message "supergroup" 77 503 ["/new_result_3vs3"; "ann"; "@@bob"; "@cyd"; "@dan"; "21-19"]%string.

(** A report that names somebody who has no tag. *)
Definition stranger_report : message :=
  Message "group" 77 504 ["/new_result_1vs1"; "@ann"; "@eve"; "11-9"]%string.

(** ** Facts about the engine *)

(** C3: equal ratings of 1000 give K = 15.0, an expected score of 0.5, a
    raw delta of 7.5, and the tie between 7 and 8 goes to the even 8,
    whatever the C library's [pow] is. *)
Theorem elo_1000_1000 `{Libm} :
  calculate_k_factor 1000 1000 = Ok 15%float ∧
  expected_score_winner 1000 1000 = Ok 0.5%float ∧
  raw_delta 1000 1000 = Ok 7.5%float ∧
  Py.round 7.5%float = Ok 8 ∧
  calculate_elo_change 1000 1000 = Ok 8.
Proof. repeat split; vm_compute; reflexivity. Qed.

(** ** Running a handler *)

Section Running.
Context `{Libm}.

Lemma run_bind {A B : Type} (p : prog A) (f : A → prog B) (s : Bot) :
  run (p ≫= f) s =
  match run p s with
  | (Ok a, s1, t1) => let '(r, s2, t2) := run (f a) s1 in (r, s2, t1 ++ t2)
  | (Raise e, s1, t1) => (Raise e, s1, t1)
  end.
Proof.
  revert s. induction p as [a|e|X c k IH]; intros s; simpl.
  - destruct (run (f a) s) as [[r s2] t2]; reflexivity.
  - reflexivity.
  - destruct (exec c s) as [x s1].
    change (prog_bind f (k x)) with (k x ≫= f). rewrite IH.
    destruct (run (k x) s1) as [[[a|e] s2] t1]; [|reflexivity].
    destruct (run (f a) s2) as [[r s3] t2]; reflexivity.
Qed.

Lemma run_do {X : Type} (c : call X) (s : Bot) :
  run (do c) s = (Ok (exec c s).1, (exec c s).2, [Made c]).
Proof. unfold do; simpl. destruct (exec c s); reflexivity. Qed.

Lemma run_lift {A : Type} (r : result A) (s : Bot) : run (lift r) s = (r, s, []).
Proof. destruct r; reflexivity. Qed.

End Running.

(** ** Rowids *)

Lemma foldr_max_ge (k : Z) (ks : list Z) (x : Z) :
  x ∈ k :: ks → x ≤ foldr Z.max k ks.
Proof.
  induction ks as [|y ks IH]; simpl.
  - intros ->%list_elem_of_singleton. lia.
  - rewrite !elem_of_cons. intros [->|[->|Hx]].
    + assert (k ≤ foldr Z.max k ks) by (apply IH; left). lia.
    + lia.
    + assert (x ≤ foldr Z.max k ks) by (apply IH; right; done). lia.
Qed.

Lemma next_rowid_above {V : Type} (table : gmap Z V) (i : Z) :
  is_Some (table !! i) → i < next_rowid table.
Proof.
  intros [v Hv]. unfold next_rowid.
  assert (Hin : i ∈ (map_to_list table).*1).
  { apply list_elem_of_fmap. exists (i, v). split; [done|].
    by apply elem_of_map_to_list. }
  destruct ((map_to_list table).*1) as [|k ks].
  - by apply elem_of_nil in Hin.
  - apply foldr_max_ge in Hin. lia.
Qed.

Lemma next_rowid_fresh {V : Type} (table : gmap Z V) :
  table !! next_rowid table = None.
Proof.
  destruct (table !! next_rowid table) eqn:E; [|done].
  assert (next_rowid table < next_rowid table) by (apply next_rowid_above; eauto).
  lia.
Qed.

(** ** Looking up a rating *)

(** C6, as amended: for a player id with no row in [players], the rating
    lookup returns the default rating 1000; it raises nothing and
    signals no absence. *)
Theorem rating_of_unknown_player_is_default (d : Database) (user_id : Z) :
  players d !! user_id = None →
  get_player_rating d user_id = Ok DEFAULT_RATING.
Proof. intros Hrow. unfold get_player_rating. by rewrite Hrow. Qed.

Lemma rating_of_unknown_player_is_default_witness :
  players no_rows !! 42 = None ∧ get_player_rating no_rows 42 = Ok 1000.
Proof.
  split; [reflexivity|].
  apply (rating_of_unknown_player_is_default no_rows 42). reflexivity.
Defined.

(** C6, as stated, fails: a lookup for a player without a row does
    return a value. *)
Lemma rating_lookup_never_signals_absence :
  ¬ (∀ (d : Database) (user_id : Z),
       players d !! user_id = None → ∀ v, get_player_rating d user_id ≠ Ok v).
Proof.
  intros Hclaim. apply (Hclaim no_rows 42 eq_refl 1000). reflexivity.
Qed.

(** ** Pending ids *)

(** C7, as amended: the id given to a new pending result is free and
    greater than every id in the pending table at that moment, and the
    new row is stored under it. An id whose row is gone can come back. *)
Theorem pending_id_is_above_stored_ids (d : Database) (match_type : string)
    (participants winner_ids loser_ids : list Z) (score : string) :
  let '(match_id, d') :=
    add_pending_match d match_type participants winner_ids loser_ids score in
  pending_matches d !! match_id = None ∧
  (∀ k, is_Some (pending_matches d !! k) → k < match_id) ∧
  pending_matches d' !! match_id =
    Some (PendingMatch match_type participants winner_ids loser_ids score) ∧
  (∀ k, k ≠ match_id → pending_matches d' !! k = pending_matches d !! k).
Proof.
  unfold add_pending_match; simpl. repeat split.
  - apply next_rowid_fresh.
  - intros k. apply next_rowid_above.
  - apply lookup_insert_eq.
  - intros k Hk. by apply lookup_insert_ne.
Qed.

(** C7, as stated, fails: create, discard, create gives the id 1
    twice. *)
Lemma pending_id_is_reused :
  ¬ (∀ ops : list ledger_op, increasing (ledger_run ops no_rows).2).
Proof.
  intros Hclaim.
  specialize (Hclaim [CreatePending "1vs1" [1] [2] "11-9"; DiscardPending 1;
                      CreatePending "1vs1" [3] [4] "11-7"]%string).
  vm_compute in Hclaim. destruct Hclaim as [Hlt _]. discriminate Hlt.
Qed.

(** ** Expiry *)

Section Expiry.
Context `{Libm}.

(** C9: when the timer fires while the result is still pending, the
    handler deletes that pending row and nothing else: players, history,
    the other pending rows, the job store and the target chat stay as
    they were, the engine is not invoked, no rating is updated, and one
    message is sent, the expiry notice in reply to the original
    report. *)
Theorem expiry_removes_only_the_pending_row
    (s : Bot) (match_id chat_id original_message_id : Z) :
  is_pending match_id s →
  let '(r, s', t) :=
    run (delete_pending_match_job match_id chat_id original_message_id) s in
  r = Ok Expired ∧
  pending_matches (db s') = delete match_id (pending_matches (db s)) ∧
  matches (db s') = matches (db s) ∧
  players (db s') = players (db s) ∧
  user_mapping (db s') = user_mapping (db s) ∧
  jobs s' = jobs s ∧
  TARGET_CHAT_ID s' = TARGET_CHAT_ID s ∧
  rating_updates t = [] ∧
  engine_calls t = [] ∧
  telegram_calls t =
    [SendMessage chat_id (TxtExpired match_id) (Some original_message_id)].
Proof.
  intros [row Hrow]. unfold delete_pending_match_job.
  rewrite run_bind, run_do. simpl.
  unfold get_pending_match. rewrite Hrow. simpl.
  repeat split.
Qed.

End Expiry.

Lemma expiry_removes_only_the_pending_row_witness :
  is_pending 1 one_pending ∧
  (run (H := whole_powers_of_ten) (delete_pending_match_job 1 77 500) one_pending).1.1
    = Ok Expired ∧
  pending_matches
    (db (run (H := whole_powers_of_ten)
           (delete_pending_match_job 1 77 500) one_pending).1.2) !! 1 = None.
Proof.
  assert (Hp : is_pending 1 one_pending).
  { apply (bool_decide_unpack _). vm_compute. exact I. }
  split; [exact Hp|].
  pose proof (expiry_removes_only_the_pending_row (H := whole_powers_of_ten)
                one_pending 1 77 500 Hp) as Hthm.
  destruct (run _ _) as [[r s'] t]; simpl. destruct Hthm as (-> & Hrows & _).
  split; [reflexivity|]. rewrite Hrows. apply lookup_delete_eq.
Defined.

(** ** Confirmation *)

Lemma rating_updates_reads (ids : list Z) : rating_updates (rating_reads ids) = [].
Proof. induction ids; [done|]. by cbn. Qed.

Lemma engine_calls_reads (ids : list Z) : engine_calls (rating_reads ids) = [].
Proof. induction ids; [done|]. by cbn. Qed.

Lemma telegram_calls_reads (ids : list Z) : telegram_calls (rating_reads ids) = [].
Proof. induction ids; [done|]. by cbn. Qed.

Lemma rating_updates_writes (updates : list (Z * Z)) :
  rating_updates (rating_writes updates) = updates.
Proof.
  induction updates as [|[u d] us IH]; [done|]. cbn. f_equal. exact IH.
Qed.

Lemma engine_calls_writes (updates : list (Z * Z)) :
  engine_calls (rating_writes updates) = [].
Proof. induction updates; [done|]. by cbn. Qed.

Lemma telegram_calls_writes (updates : list (Z * Z)) :
  telegram_calls (rating_writes updates) = [].
Proof. induction updates; [done|]. by cbn. Qed.

Section Confirmation.
Context `{Libm}.

Lemma run_collect_ratings (s : Bot) (ids : list Z) (ratings : list Z) :
  mapM (get_player_rating (db s)) ids = Ok ratings →
  run (collect ids (λ uid, do_try (DbGetPlayerRating uid))) s
  = (Ok ratings, s, rating_reads ids).
Proof.
  revert ratings. induction ids as [|uid ids IH]; intros ratings.
  { intros [= <-]. reflexivity. }
  cbn [collect mapM]. rewrite run_bind. unfold do_try at 1.
  rewrite run_bind, run_do. cbn [exec fst snd]. rewrite run_lift.
  destruct (get_player_rating (db s) uid) as [r|e]; cbn; [|discriminate].
  destruct (mapM (get_player_rating (db s)) ids) as [rs|e]; cbn; [|discriminate].
  intros [= <-]. rewrite run_bind, (IH rs eq_refl). cbn. rewrite app_nil_r. reflexivity.
Qed.

Lemma run_collect_ratings_raise (s : Bot) (ids : list Z) (e : exn) :
  mapM (get_player_rating (db s)) ids = Raise e →
  ∃ k, run (collect ids (λ uid, do_try (DbGetPlayerRating uid))) s
       = (Raise e, s, rating_reads (take k ids)).
Proof.
  induction ids as [|uid ids IH]; [discriminate|].
  cbn [collect mapM]. rewrite run_bind. unfold do_try at 1.
  rewrite run_bind, run_do. cbn [exec fst snd]. rewrite run_lift.
  destruct (get_player_rating (db s) uid) as [r|e']; cbn.
  2:{ intros [= ->]. by exists 1%nat. }
  rewrite run_bind.
  destruct (mapM (get_player_rating (db s)) ids) as [rs|e']; cbn; [discriminate|].
  intros [= ->]. destruct (IH eq_refl) as [k ->]. by exists (S k).
Qed.

Lemma run_updates (s : Bot) (ids : list Z) (delta : Z) :
  run (for_each ids (λ uid, do (DbUpdatePlayerRating uid delta))) s
  = (Ok tt,
     with_db s (apply_updates (db s) ((λ uid, (uid, delta)) <$> ids)),
     rating_writes ((λ uid, (uid, delta)) <$> ids)).
Proof.
  revert s. induction ids as [|uid ids IH]; intros s.
  { destruct s; reflexivity. }
  cbn [for_each]. rewrite run_bind, run_do. cbn [exec fst snd].
  rewrite IH. reflexivity.
Qed.

Lemma run_do_try {A : Type} (c : call (result A)) (s : Bot) :
  run (do_try c) s = ((exec c s).1, (exec c s).2, [Made c]).
Proof.
  unfold do_try. rewrite run_bind, run_do. cbn [fst snd].
  rewrite run_lift. reflexivity.
Qed.

Lemma mapM_result_length {A B : Type} (f : A → result B) (l : list A) (k : list B) :
  mapM f l = Ok k → length k = length l.
Proof.
  revert k. induction l as [|x l IH]; intros k; cbn.
  - by intros [= <-].
  - destruct (f x); cbn; [|discriminate].
    destruct (mapM f l); cbn; [|discriminate].
    intros [= <-]. cbn. f_equal. by apply IH.
Qed.

Lemma team_input_nonempty (d : Database) (ids : list Z) (a : Z) :
  team_input d ids = Ok a → ids ≠ [].
Proof. intros Ha ->. vm_compute in Ha. discriminate. Qed.

Lemma apply_updates_app (d : Database) (u1 u2 : list (Z * Z)) :
  apply_updates d (u1 ++ u2) = apply_updates (apply_updates d u1) u2.
Proof. apply foldl_app. Qed.

(** [finalize_match] never gets the lock for its second write. *)
Lemma finalize_match_is_locked_out (d : Database) (match_id : Z)
    (winner_ids loser_ids : list Z) (score match_type : string) :
  finalize_match d match_id winner_ids loser_ids score match_type
  = Raise OperationalError.
Proof. reflexivity. Qed.

(** A confirmation by a participant whose reads and whose delta come
    out: the updates are made, then [finalize_match] raises. *)
Lemma confirmation_goes_as_far_as_finalize
    (s : Bot) (match_id user_id chat_id : Z) (row : pending_match) (aw al delta_r : Z) :
  pending_matches (db s) !! match_id = Some row →
  user_id ∈ pm_winner_ids row ++ pm_loser_ids row →
  settle (db s) (pm_winner_ids row) (pm_loser_ids row) = Ok (aw, al, delta_r) →
  run (process_match_confirmation match_id user_id chat_id) s
  = (Raise OperationalError,
     with_db s (updated (db s) row delta_r),
     confirmation_steps match_id row aw al delta_r).
Proof.
  intros Hrow Huser Hsettle.
  unfold process_match_confirmation.
  rewrite run_bind, run_do. cbn [exec fst snd].
  unfold get_pending_match. rewrite Hrow. cbn [mbind option_bind].
  unfold confirmation_steps, updated.
  destruct row as [mt ps W L sc]; cbn [pm_match_type pm_winner_ids pm_loser_ids pm_score] in *.
  unfold settle in Hsettle.
  destruct (team_input (db s) W) as [aw'|] eqn:Haw; [|discriminate].
  destruct (team_input (db s) L) as [al'|] eqn:Hal; [|discriminate].
  cbn [mbind result_bind] in Hsettle.
  destruct (calculate_elo_change aw' al') as [d'|] eqn:Helo; [|discriminate].
  injection Hsettle as -> -> ->.
  pose proof (team_input_nonempty _ _ _ Haw) as HW.
  pose proof (team_input_nonempty _ _ _ Hal) as HL.
  unfold team_input in Haw, Hal.
  destruct (mapM (get_player_rating (db s)) W) as [wr|] eqn:Hwr; [|discriminate].
  destruct (mapM (get_player_rating (db s)) L) as [lr|] eqn:Hlr; [|discriminate].
  cbn [mbind result_bind] in Haw, Hal.
  destruct (average wr) as [avw|] eqn:Havw; [|discriminate].
  destruct (average lr) as [avl|] eqn:Havl; [|discriminate].
  cbn [mbind result_bind] in Haw, Hal.
  assert (split_ids W = Ok W) as -> by (destruct W; done).
  assert (split_ids L = Ok L) as -> by (destruct L; done).
  rewrite run_bind, run_lift, run_bind, run_lift.
  rewrite bool_decide_false by (intros Hn; apply Hn, Huser).
  rewrite run_bind, (run_collect_ratings _ _ _ Hwr).
  rewrite run_bind, (run_collect_ratings _ _ _ Hlr).
  rewrite Havw, Havl.
  rewrite run_bind, run_lift, run_bind, run_lift.
  rewrite Haw, Hal.
  rewrite run_bind, run_lift, run_bind, run_lift.
  rewrite run_bind, run_do_try. cbn [exec fst snd]. rewrite Helo.
  rewrite run_bind, run_updates.
  rewrite run_bind, run_updates.
  rewrite run_bind, run_do_try. cbn [exec fst snd].
  rewrite finalize_match_is_locked_out.
  cbn [db with_db fst snd]. unfold settlement_updates, rating_writes.
  rewrite apply_updates_app, fmap_app.
  rewrite !app_nil_l, <- !app_assoc. reflexivity.
Qed.

(** The same confirmation when a read or the engine raises: it stops
    there, before the first update. *)
Lemma confirmation_raises
    (s : Bot) (match_id user_id chat_id : Z) (row : pending_match) (e : exn) :
  pending_matches (db s) !! match_id = Some row →
  user_id ∈ pm_winner_ids row ++ pm_loser_ids row →
  settle (db s) (pm_winner_ids row) (pm_loser_ids row) = Raise e →
  ∃ e' t, run (process_match_confirmation match_id user_id chat_id) s = (Raise e', s, t) ∧
          rating_updates t = [] ∧ telegram_calls t = [].
Proof.
  intros Hrow Huser Hsettle.
  unfold process_match_confirmation.
  rewrite run_bind, run_do. cbn [exec fst snd].
  unfold get_pending_match. rewrite Hrow. cbn [mbind option_bind].
  destruct row as [mt ps W L sc]; cbn [pm_match_type pm_winner_ids pm_loser_ids pm_score] in *.
  rewrite run_bind, run_lift.
  destruct (split_ids W) as [W0|] eqn:HW; [|cbn; eauto].
  assert (W0 = W) as -> by (destruct W; [discriminate|by injection HW]).
  rewrite run_bind, run_lift.
  destruct (split_ids L) as [L0|] eqn:HL; [|cbn; eauto].
  assert (L0 = L) as -> by (destruct L; [discriminate|by injection HL]).
  rewrite bool_decide_false by (intros Hn; apply Hn, Huser).
  rewrite run_bind.
  assert (Hquiet : ∀ k ids (rest : list made),
            rating_updates rest = [] → telegram_calls rest = [] →
            rating_updates (Made (DbGetPendingMatch match_id)
                              :: [] ++ [] ++ rating_reads (take k ids) ++ rest) = [] ∧
            telegram_calls (Made (DbGetPendingMatch match_id)
                              :: [] ++ [] ++ rating_reads (take k ids) ++ rest) = []).
  { intros k ids rest Hu Ht. unfold rating_updates, telegram_calls in *.
    cbn [app omap list_omap]. rewrite !omap_app, Hu, Ht.
    fold (rating_updates (rating_reads (take k ids))).
    fold (telegram_calls (rating_reads (take k ids))).
    by rewrite rating_updates_reads, telegram_calls_reads. }
  unfold settle, team_input in Hsettle.
  destruct (mapM (get_player_rating (db s)) W) as [wr|ew] eqn:Hwr.
  2:{ destruct (run_collect_ratings_raise _ _ _ Hwr) as [k ->].
      do 2 eexists. split; [reflexivity|].
      destruct (Hquiet k W [] eq_refl eq_refl) as [Hu Ht].
      rewrite !app_nil_r in Hu, Ht. cbn [app] in *. done. }
  rewrite (run_collect_ratings _ _ _ Hwr), run_bind.
  assert (HW' : W = take (length W) W) by (by rewrite firstn_all).
  destruct (mapM (get_player_rating (db s)) L) as [lr|el] eqn:Hlr.
  2:{ destruct (run_collect_ratings_raise _ _ _ Hlr) as [k ->].
      do 2 eexists. split; [reflexivity|].
      destruct (Hquiet (length W) W (rating_reads (take k L))) as [Hu Ht];
        [apply rating_updates_reads|apply telegram_calls_reads|].
      rewrite <- HW' in Hu, Ht. cbn [app] in *. done. }
  rewrite (run_collect_ratings _ _ _ Hlr), run_bind, run_lift.
  assert (Hreads : ∀ rest : list made,
            rating_updates rest = [] → telegram_calls rest = [] →
            rating_updates (Made (DbGetPendingMatch match_id)
                              :: [] ++ [] ++ rating_reads W ++ rating_reads L ++ rest) = [] ∧
            telegram_calls (Made (DbGetPendingMatch match_id)
                              :: [] ++ [] ++ rating_reads W ++ rating_reads L ++ rest) = []).
  { intros rest Hu Ht. unfold rating_updates, telegram_calls in *.
    cbn [app omap list_omap]. rewrite !omap_app, Hu, Ht.
    fold (rating_updates (rating_reads W)). fold (rating_updates (rating_reads L)).
    fold (telegram_calls (rating_reads W)). fold (telegram_calls (rating_reads L)).
    by rewrite !rating_updates_reads, !telegram_calls_reads. }
  cbn [mbind result_bind] in Hsettle.
  destruct (average wr) as [avw|].
  2:{ do 2 eexists. split; [reflexivity|]. by apply Hreads. }
  rewrite run_bind, run_lift.
  destruct (average lr) as [avl|].
  2:{ do 2 eexists. split; [reflexivity|]. apply (Hreads ([] ++ [])); done. }
  rewrite run_bind, run_lift.
  cbn [mbind result_bind] in Hsettle.
  destruct (Py.int_of_float avw) as [aw|].
  2:{ do 2 eexists. split; [reflexivity|]. apply (Hreads ([] ++ [] ++ [])); done. }
  rewrite run_bind, run_lift.
  destruct (Py.int_of_float avl) as [al|].
  2:{ do 2 eexists. split; [reflexivity|]. apply (Hreads ([] ++ [] ++ [] ++ [])); done. }
  rewrite run_bind, run_do_try. cbn [exec fst snd].
  cbn [mbind result_bind] in Hsettle.
  destruct (calculate_elo_change aw al) as [d|]; [discriminate|].
  do 2 eexists. split; [reflexivity|].
  apply (Hreads ([] ++ [] ++ [] ++ [] ++ [Made (EloChange aw al)])); done.
Qed.

End Confirmation.

Section Outcomes.
Context `{Libm}.

Lemma confirmation_already_settled (s : Bot) (match_id user_id chat_id : Z) :
  pending_matches (db s) !! match_id = None →
  run (process_match_confirmation match_id user_id chat_id) s
  = (Ok AlreadySettled, s,
     [Made (DbGetPendingMatch match_id);
      Made (Telegram (CallbackAnswer TxtAlreadyProcessed));
      Made (Telegram DeleteReplyMarkup)]).
Proof.
  intros Hrow. unfold process_match_confirmation.
  rewrite run_bind, run_do. cbn [exec fst snd].
  unfold get_pending_match. rewrite Hrow. reflexivity.
Qed.

Lemma confirmation_by_outsider
    (s : Bot) (match_id user_id chat_id : Z) (row : pending_match) :
  pending_matches (db s) !! match_id = Some row →
  user_id ∉ pm_winner_ids row ++ pm_loser_ids row →
  (pm_winner_ids row ≠ [] ∧ pm_loser_ids row ≠ [] ∧
   run (process_match_confirmation match_id user_id chat_id) s
   = (Ok NotAuthorized, s,
      [Made (DbGetPendingMatch match_id);
       Made (Telegram (CallbackAnswer TxtOnlyParticipant))]))
  ∨ ((pm_winner_ids row = [] ∨ pm_loser_ids row = []) ∧
     run (process_match_confirmation match_id user_id chat_id) s
     = (Raise ValueError, s, [Made (DbGetPendingMatch match_id)])).
Proof.
  intros Hrow Huser. unfold process_match_confirmation.
  rewrite run_bind, run_do. cbn [exec fst snd].
  unfold get_pending_match. rewrite Hrow. cbn [mbind option_bind].
  destruct row as [mt ps W L sc]; cbn [pm_match_type pm_winner_ids pm_loser_ids pm_score] in *.
  destruct W as [|w W]; [right; split; [by left|]; reflexivity|].
  destruct L as [|l L]; [right; split; [by right|]; reflexivity|].
  left. split; [done|]. split; [done|].
  cbn [split_ids]. rewrite run_bind, run_lift, run_bind, run_lift.
  rewrite bool_decide_true by exact Huser. reflexivity.
Qed.

Lemma record_of_confirmation (match_id : Z) (row : pending_match) (aw al delta_r : Z) :
  let t := confirmation_steps match_id row aw al delta_r in
  rating_updates t = settlement_updates (pm_winner_ids row) (pm_loser_ids row) delta_r ∧
  engine_calls t = [(aw, al)] ∧
  telegram_calls t = [].
Proof.
  unfold confirmation_steps, rating_updates, engine_calls, telegram_calls.
  cbn [omap list_omap]. rewrite !omap_app. cbn [omap list_omap]. rewrite !omap_app.
  fold (rating_updates (rating_reads (pm_winner_ids row))).
  fold (rating_updates (rating_reads (pm_loser_ids row))).
  fold (engine_calls (rating_reads (pm_winner_ids row))).
  fold (engine_calls (rating_reads (pm_loser_ids row))).
  fold (telegram_calls (rating_reads (pm_winner_ids row))).
  fold (telegram_calls (rating_reads (pm_loser_ids row))).
  fold (rating_updates (rating_writes
          (settlement_updates (pm_winner_ids row) (pm_loser_ids row) delta_r))).
  fold (engine_calls (rating_writes
          (settlement_updates (pm_winner_ids row) (pm_loser_ids row) delta_r))).
  fold (telegram_calls (rating_writes
          (settlement_updates (pm_winner_ids row) (pm_loser_ids row) delta_r))).
  rewrite !rating_updates_reads, !engine_calls_reads, !telegram_calls_reads.
  rewrite rating_updates_writes, engine_calls_writes, telegram_calls_writes.
  cbn. rewrite app_nil_r. done.
Qed.

(** Every run of a confirmation: it leaves the state as it was and has
    made no update, or it is the run of a participant that got as far
    as [finalize_match]. *)
Lemma confirmation_cases
    (s s' : Bot) (match_id user_id chat_id : Z) (r : result settlement) (t : list made) :
  run (process_match_confirmation match_id user_id chat_id) s = (r, s', t) →
  (s' = s ∧ rating_updates t = [] ∧ ∀ delta_r, r ≠ Ok (Finalized delta_r))
  ∨ ∃ row aw al delta_r,
      pending_matches (db s) !! match_id = Some row ∧
      user_id ∈ pm_winner_ids row ++ pm_loser_ids row ∧
      settle (db s) (pm_winner_ids row) (pm_loser_ids row) = Ok (aw, al, delta_r) ∧
      r = Raise OperationalError ∧
      s' = with_db s (updated (db s) row delta_r) ∧
      t = confirmation_steps match_id row aw al delta_r.
Proof.
  intros Hrun.
  destruct (pending_matches (db s) !! match_id) as [row|] eqn:Hrow.
  2:{ rewrite confirmation_already_settled in Hrun by done.
      injection Hrun as <- <- <-. by left. }
  destruct (decide (user_id ∈ pm_winner_ids row ++ pm_loser_ids row)) as [Hin|Hout].
  2:{ destruct (confirmation_by_outsider s match_id user_id chat_id row Hrow Hout)
        as [(_ & _ & Heq)|(_ & Heq)]; rewrite Heq in Hrun;
        injection Hrun as <- <- <-; by left. }
  destruct (settle (db s) (pm_winner_ids row) (pm_loser_ids row))
    as [[[aw al] d]|e] eqn:Hsettle.
  - rewrite (confirmation_goes_as_far_as_finalize _ _ _ _ _ _ _ _ Hrow Hin Hsettle)
      in Hrun.
    injection Hrun as <- <- <-. right. exists row, aw, al, d. done.
  - destruct (confirmation_raises _ _ _ chat_id _ _ Hrow Hin Hsettle)
      as (e' & t' & Heq & Hu & _).
    rewrite Heq in Hrun. injection Hrun as <- <- <-. by left.
Qed.

Lemma settlement_updates_nonempty (W L : list Z) (delta_r : Z) :
  W ≠ [] → settlement_updates W L delta_r ≠ [].
Proof. by destruct W. Qed.

(** A run that made an update is a run that got as far as
    [finalize_match]. *)
Lemma confirmation_with_updates
    (s s' : Bot) (match_id user_id chat_id : Z) (r : result settlement) (t : list made) :
  run (process_match_confirmation match_id user_id chat_id) s = (r, s', t) →
  rating_updates t ≠ [] →
  ∃ row aw al delta_r,
    pending_matches (db s) !! match_id = Some row ∧
    user_id ∈ pm_winner_ids row ++ pm_loser_ids row ∧
    settle (db s) (pm_winner_ids row) (pm_loser_ids row) = Ok (aw, al, delta_r) ∧
    r = Raise OperationalError ∧
    s' = with_db s (updated (db s) row delta_r) ∧
    t = confirmation_steps match_id row aw al delta_r.
Proof.
  intros Hrun Hupd. by destruct (confirmation_cases _ _ _ _ _ _ _ Hrun) as [(_ & ? & _)|?].
Qed.

Lemma pending_of_apply_updates (d : Database) (updates : list (Z * Z)) :
  pending_matches (apply_updates d updates) = pending_matches d ∧
  matches (apply_updates d updates) = matches d ∧
  user_mapping (apply_updates d updates) = user_mapping d.
Proof.
  revert d. induction updates as [|u us IH]; intros d; [done|].
  change (apply_updates d (u :: us))
    with (apply_updates (update_player_rating d u.1 u.2) us).
  destruct (IH (update_player_rating d u.1 u.2)) as (-> & -> & ->). done.
Qed.

(** No run of a confirmation touches the job store, the target chat
    or a table other than [players]. *)
Lemma confirmation_frame
    (s s' : Bot) (match_id user_id chat_id : Z) (r : result settlement) (t : list made) :
  run (process_match_confirmation match_id user_id chat_id) s = (r, s', t) →
  pending_matches (db s') = pending_matches (db s) ∧
  matches (db s') = matches (db s) ∧
  user_mapping (db s') = user_mapping (db s) ∧
  jobs s' = jobs s ∧
  TARGET_CHAT_ID s' = TARGET_CHAT_ID s.
Proof.
  intros Hrun.
  destruct (confirmation_cases _ _ _ _ _ _ _ Hrun)
    as [(-> & _)|(row & aw & al & d & _ & _ & _ & _ & -> & _)]; [done|].
  cbn [db with_db jobs TARGET_CHAT_ID]. unfold updated.
  by destruct (pending_of_apply_updates (db s)
    (settlement_updates (pm_winner_ids row) (pm_loser_ids row) d)) as (-> & -> & ->).
Qed.

End Outcomes.
(** ** Submission *)

Section Submission.
Context `{Libm}.

Lemma run_resolve_tags (tags : list string) (user_ids : gmap string Z) (s : Bot) :
  ∃ r t, run (resolve_tags tags user_ids) s = (Ok r, s, t) ∧
    ∀ m, r = Some m →
      (∀ tag, tag ∈ tags → m !! tag = get_user_id_by_tag (db s) tag ∧ is_Some (m !! tag)) ∧
      (∀ tag, tag ∉ tags → m !! tag = user_ids !! tag).
Proof.
  revert user_ids. induction tags as [|x tags IH]; intros user_ids.
  { exists (Some user_ids), []. split; [reflexivity|].
    intros m [= <-]. split; [|done]. intros tag Htag. by apply elem_of_nil in Htag. }
  cbn [resolve_tags]. rewrite run_bind, run_do. cbn [exec fst snd].
  destruct (get_user_id_by_tag (db s) x) as [uid|] eqn:Hx.
  2:{ exists None. eexists. split; [reflexivity|]. discriminate. }
  destruct (IH (<[x := uid]> user_ids)) as (r & t & -> & Hr).
  exists r. eexists. split; [reflexivity|].
  intros m Hm. destruct (Hr m Hm) as [Hin Hout]. split.
  - intros tag Htag. destruct (decide (tag ∈ tags)) as [?|Hn]; [by apply Hin|].
    apply elem_of_cons in Htag as [->|?]; [|done].
    rewrite (Hout x Hn), lookup_insert_eq, Hx. eauto.
  - intros tag Htag. apply not_elem_of_cons in Htag as [Hne Hn].
    rewrite (Hout tag Hn). by apply lookup_insert_ne.
Qed.

Lemma run_ids_of_tags (m : gmap string Z) (d : Database) (tags : list string) (s : Bot) :
  (∀ tag, tag ∈ tags → m !! tag = get_user_id_by_tag d tag ∧ is_Some (m !! tag)) →
  ∃ ids, run (ids_of_tags m tags) s = (Ok ids, s, []) ∧
         mapM (get_user_id_by_tag d) tags = Some ids.
Proof.
  intros Hm. unfold ids_of_tags.
  assert (Heq : mapM (λ tag, m !! tag) tags = mapM (get_user_id_by_tag d) tags).
  { induction tags as [|x tags IH]; [done|]. cbn.
    destruct (Hm x) as [-> _]; [left|]. rewrite IH; [done|].
    intros tag Htag. apply Hm. by right. }
  assert (Hsome : is_Some (mapM (λ tag, m !! tag) tags)).
  { apply mapM_is_Some. apply Forall_forall. intros tag Htag. by apply Hm. }
  destruct Hsome as [ids Hids]. rewrite Hids. exists ids. split; [done|].
  by rewrite <- Heq.
Qed.

Lemma remove_dups_no_longer {A : Type} `{EqDecision A} (l : list A) :
  (length (remove_dups l) ≤ length l)%nat.
Proof.
  induction l as [|x l IH]; [done|]. cbn.
  destruct (decide_rel elem_of x l); cbn; lia.
Qed.

Lemma remove_dups_same_length {A : Type} `{EqDecision A} (l : list A) :
  length (remove_dups l) = length l → NoDup l.
Proof.
  induction l as [|x l IH]; [constructor|]. cbn.
  pose proof (remove_dups_no_longer l) as Hle.
  destruct (decide_rel elem_of x l) as [Hin|Hout]; cbn; [lia|].
  intros [= Hlen]. constructor; auto.
Qed.

Lemma run_reject (message : message) (why : text) (s : Bot) :
  run (reject message why) s
  = (Ok (Rejected why), s, [Made (Telegram (Reply (message_id message) why None))]).
Proof. unfold reject. rewrite run_bind, run_do. reflexivity. Qed.

Lemma elem_of_take_drop {A : Type} (n : nat) (l : list A) (x : A) :
  x ∈ take n l ∨ x ∈ drop n l → x ∈ l.
Proof. rewrite <- (take_drop n l) at 3. rewrite elem_of_app. done. Qed.

Lemma mapM_option_app {A B : Type} (f : A → option B) (l1 l2 : list A) (k1 k2 : list B) :
  mapM f l1 = Some k1 → mapM f l2 = Some k2 → mapM f (l1 ++ l2) = Some (k1 ++ k2).
Proof.
  rewrite !mapM_Some. apply Forall2_app.
Qed.

Lemma singles_teams {A : Type} (l : list A) :
  length l = 2%nat →
  l = take 1 l ++ take 1 (drop 1 l) ∧
  length (take 1 l) = length (take 1 (drop 1 l)) ∧ take 1 l ≠ [].
Proof. destruct l as [|a [|b [|c l]]]; done. Qed.

Lemma doubles_teams {A : Type} (l : list A) :
  length l = 4%nat →
  l = take 2 l ++ drop 2 l ∧ length (take 2 l) = length (drop 2 l) ∧ take 2 l ≠ [].
Proof. destruct l as [|a [|b [|c [|d [|e l]]]]]; done. Qed.

(** What a run of the submission handler comes to: a rejection that
    writes nothing, or a new pending row and then the exception of
    [add_job]. *)
Lemma new_result_run (s s' : Bot) (message : message) (r : result submission)
    (t : list made) :
  run (handle_new_result_command message) s = (r, s', t) →
  ((∃ why, r = Ok (Rejected why)) ∧ db s' = db s ∧ jobs s' = jobs s)
  ∨ (∃ match_type W L,
       r = Raise TypeError ∧
       db s' = (add_pending_match (db s) match_type (W ++ L) W L
                  (List.last (parts message) ""%string)).2 ∧
       jobs s' = jobs s ∧
       mapM (get_user_id_by_tag (db s)) (tags_of message) = Some (W ++ L) ∧
       NoDup (W ++ L) ∧ length W = length L ∧ W ≠ [] ∧ L ≠ []).
Proof.
  unfold handle_new_result_command.
  destruct (bool_decide (chat_type message ∈ _)); cbn [negb].
  2:{ rewrite run_reject. intros [= <- <- <-]. left. eauto. }
  rewrite run_bind, run_do. cbn [exec fst snd]. rewrite run_bind.
  assert (Htarget : ∃ s1 t1,
    run (if decide (TARGET_CHAT_ID s = 0) then do (SetTargetChat (chat_id message))
         else Ret tt) s = (Ok tt, s1, t1) ∧ db s1 = db s ∧ jobs s1 = jobs s).
  { destruct (decide (TARGET_CHAT_ID s = 0)); [rewrite run_do|]; cbn; eauto. }
  destruct Htarget as (s1 & t1 & -> & Hdb & Hjobs).
  destruct (decide (length (parts message) < 4)%nat).
  { rewrite run_reject. intros [= <- <- <-]. left. eauto. }
  fold (tags_of message). set (tags := tags_of message).
  set (score := List.last (parts message) ""%string).
  assert (Htail : ∀ match_type wt lt,
    tags = wt ++ lt → length wt = length lt → wt ≠ [] →
    ∀ r0 s2 t2,
    run (resolve_tags (remove_dups tags) ∅ ≫= λ resolved,
           match resolved with
           | Some user_ids =>
               winner_ids ← ids_of_tags user_ids wt;
               loser_ids ← ids_of_tags user_ids lt;
               if bool_decide (length (remove_dups (winner_ids ++ loser_ids))
                               ≠ length (winner_ids ++ loser_ids))
               then reject message TxtNotUnique
               else
                 pending_id ← do (DbAddPendingMatch match_type (winner_ids ++ loser_ids)
                                    winner_ids loser_ids score);
                 do_try (AddJob Number
                           (Job pending_id (chat_id message) (message_id message)));;
                 do (Telegram (Reply (message_id message)
                       (TxtAwaiting match_type winner_ids loser_ids score)
                       (Some pending_id)));;
                 Ret (Submitted pending_id)
           | None => reject message TxtUserNotFound
           end) s1 = (r0, s2, t2) →
    ((∃ why, r0 = Ok (Rejected why)) ∧ db s2 = db s ∧ jobs s2 = jobs s)
    ∨ (∃ match_type W L,
         r0 = Raise TypeError ∧
         db s2 = (add_pending_match (db s) match_type (W ++ L) W L score).2 ∧
         jobs s2 = jobs s ∧
         mapM (get_user_id_by_tag (db s)) tags = Some (W ++ L) ∧
         NoDup (W ++ L) ∧ length W = length L ∧ W ≠ [] ∧ L ≠ [])).
  { intros mt wt lt Htags Hlen Hwt r0 s2 t2.
    rewrite run_bind.
    destruct (run_resolve_tags (remove_dups tags) ∅ s1) as (res & tr & -> & Hres).
    destruct res as [m|].
    2:{ rewrite run_reject. intros [= <- <- <-]. left. eauto. }
    destruct (Hres m eq_refl) as [Hin _].
    assert (Hall : ∀ tag, tag ∈ tags →
              m !! tag = get_user_id_by_tag (db s1) tag ∧ is_Some (m !! tag)).
    { intros tag Htag. apply Hin. by apply elem_of_remove_dups. }
    rewrite run_bind.
    destruct (run_ids_of_tags m (db s1) wt s1) as (W & -> & HW).
    { intros tag Htag. apply Hall. rewrite Htags. apply elem_of_app. by left. }
    rewrite run_bind.
    destruct (run_ids_of_tags m (db s1) lt s1) as (L & -> & HL).
    { intros tag Htag. apply Hall. rewrite Htags. apply elem_of_app. by right. }
    case_bool_decide as Hdup.
    { rewrite run_reject. intros [= <- <- <-]. left. eauto. }
    rewrite run_bind, run_do. cbn [exec fst snd add_pending_match].
    rewrite run_bind, run_do_try. cbn [exec fst snd date_trigger].
    intros [= <- <- <-]. right. exists mt, W, L.
    cbn [db jobs with_db]. rewrite Hdb, Hjobs in *.
    assert (HlenW : length wt = length W) by (by apply length_mapM in HW).
    assert (HlenL : length lt = length L) by (by apply length_mapM in HL).
    split; [done|]. split; [done|]. split; [done|].
    split; [rewrite Htags; by apply mapM_option_app|].
    split; [apply remove_dups_same_length; by destruct (decide (length (remove_dups (W ++ L)) = length (W ++ L)))|].
    split; [congruence|].
    split; intros ->; destruct wt, lt; cbn in *; done. }
  clearbody tags score.
  destruct (endswith (hd ""%string (parts message)) "1vs1").
  - case_bool_decide as Hcount.
    { rewrite run_reject. cbn. intros [= <- <- <-]. left. eauto. }
    assert (Hlen : length tags = 2%nat).
    { destruct (decide (length tags = 2%nat)); [done|]. by destruct Hcount. }
    rewrite bool_decide_false by (intros [? _]; discriminate).
    rewrite !bool_decide_true by done.
    destruct (singles_teams tags Hlen) as (Htags & Hsame & Hne).
    destruct (run _ s1) as [[r0 s2] t2] eqn:Hrun.
    apply (Htail _ _ _ Htags Hsame Hne) in Hrun.
    intros [= <- <- <-]. exact Hrun.
  - rewrite bool_decide_false by (intros [? _]; discriminate).
    case_bool_decide as Hcount.
    { rewrite run_reject. cbn. intros [= <- <- <-]. left. eauto. }
    assert (Hlen : length tags = 4%nat).
    { destruct (decide (length tags = 4%nat)); [done|]. by destruct Hcount. }
    rewrite !bool_decide_false by discriminate.
    destruct (doubles_teams tags Hlen) as (Htags & Hsame & Hne).
    destruct (run _ s1) as [[r0 s2] t2] eqn:Hrun.
    apply (Htail _ _ _ Htags Hsame Hne) in Hrun.
    intros [= <- <- <-]. exact Hrun.
Qed.

End Submission.

(** ** What every handler keeps of the pending rows *)

Section Invariant.
Context `{Libm}.

Lemma expiry_run (s : Bot) (match_id chat_id original_message_id : Z) :
  run (delete_pending_match_job match_id chat_id original_message_id) s
  = match pending_matches (db s) !! match_id with
    | Some _ =>
        (Ok Expired, with_db s (delete_pending_match (db s) match_id),
         [Made (DbGetPendingMatch match_id); Made (DbDeletePendingMatch match_id);
          Made (Telegram (SendMessage chat_id (TxtExpired match_id)
                            (Some original_message_id)))])
    | None => (Ok NothingToExpire, s, [Made (DbGetPendingMatch match_id)])
    end.
Proof.
  unfold delete_pending_match_job. rewrite run_bind, run_do. cbn [exec fst snd].
  unfold get_pending_match. by destruct (pending_matches (db s) !! match_id).
Qed.

(** [update_player_info] never gets a database to keep. *)
Lemma update_player_info_keeps_the_state (s : Bot) (user_id : Z)
    (username full_name : string) :
  update_player_info s user_id username full_name = s.
Proof.
  unfold update_player_info, get_or_create_player.
  by destruct (username_taken _ _ _).
Qed.

Lemma wf_fewer (s s' : Bot) :
  wf s → pending_matches (db s') ⊆ pending_matches (db s) → wf s'.
Proof.
  intros Hwf Hsub i row Hrow. apply (Hwf i).
  by apply (lookup_weaken _ _ _ _ Hrow).
Qed.

Lemma wf_same (s s' : Bot) :
  wf s → pending_matches (db s') = pending_matches (db s) → wf s'.
Proof. intros Hwf Heq. apply (wf_fewer s); [done|]. by rewrite Heq. Qed.

Lemma wf_after_new_result (s : Bot) (message : message) :
  wf s → wf (state_after (handle_new_result_command message) s).
Proof.
  intros Hwf. unfold state_after.
  destruct (run _ s) as [[r s'] t] eqn:Hrun. cbn.
  apply new_result_run in Hrun
    as [(_ & Hdb & _)|(mt & W & L & _ & Hdb & _ & _ & Hnodup & Hlen & HW & HL)].
  - apply (wf_same s); [done|]. by rewrite Hdb.
  - intros i row. rewrite Hdb. cbn.
    destruct (decide (i = next_rowid (pending_matches (db s)))) as [->|Hne].
    + rewrite lookup_insert_eq. intros [= <-]. by constructor.
    + rewrite lookup_insert_ne by done. apply Hwf.
Qed.

Lemma wf_after_confirmation (s : Bot) (match_id user_id chat_id : Z) :
  wf s → wf (state_after (process_match_confirmation match_id user_id chat_id) s).
Proof.
  intros Hwf. unfold state_after.
  destruct (run _ s) as [[r s'] t] eqn:Hrun. cbn.
  apply (wf_same s); [done|]. by destruct (confirmation_frame _ _ _ _ _ _ _ Hrun).
Qed.

Lemma wf_after_expiry (s : Bot) (match_id chat_id original_message_id : Z) :
  wf s → wf (state_after (delete_pending_match_job match_id chat_id original_message_id) s).
Proof.
  intros Hwf. unfold state_after. rewrite expiry_run.
  destruct (pending_matches (db s) !! match_id); [|done].
  apply (wf_fewer s); [done|]. apply delete_subseteq.
Qed.

Lemma handled_wf (s s' : Bot) : handled s s' → wf s → wf s'.
Proof.
  intros [s0 m|s0 i u c|s0 before j after Hjobs|s0 u n f|s0 c _|s0 i] Hwf.
  - by apply wf_after_new_result.
  - by apply wf_after_confirmation.
  - apply wf_after_expiry. by apply (wf_same s0).
  - by rewrite update_player_info_keeps_the_state.
  - by apply (wf_same s0).
  - by apply (wf_same s0).
Qed.

(** The rows the handlers write are of the kind [pending_ok]
    describes. *)
Lemma follows_wf (s s' : Bot) : follows s s' → wf s → wf s'.
Proof. induction 1 as [|s1 s2 s3 Hstep _ IH]; [done|]. intros Hwf. by apply IH, (handled_wf s1). Qed.

End Invariant.

(** ** Closed examples *)

Lemma run_eta `{Libm} {A : Type} (p : prog A) (s : Bot) :
  run p s = ((run p s).1.1, (run p s).1.2, (run p s).2).
Proof. by destruct (run p s) as [[? ?] ?]. Qed.

Lemma singles_row_ok : pending_ok (PendingMatch "1vs1" [1; 2] [1] [2] "11-9").
Proof.
  constructor; cbn; [done|done|done|].
  apply (bool_decide_unpack _). vm_compute. exact I.
Qed.

Lemma doubles_row_ok : pending_ok (PendingMatch "2vs2" [1; 2; 3; 4] [1; 2] [3; 4] "11-9").
Proof.
  constructor; cbn; [done|done|done|].
  apply (bool_decide_unpack _). vm_compute. exact I.
Qed.

(** ** Who may confirm *)

(** C8: a confirmation by somebody who is not among the participants of
    the pending result is answered with the refusal and nothing else
    happens: the state is the same, the row is still pending, no rating
    is updated, the engine is not invoked, no history row is written.
    The pending result is one as the submission handler stores them,
    with somebody on either side. *)
Theorem outsider_confirmation_changes_nothing `{Libm}
    (s : Bot) (match_id user_id chat_id : Z) (row : pending_match) :
  pending_ok row →
  pending_matches (db s) !! match_id = Some row →
  user_id ∉ pm_winner_ids row ++ pm_loser_ids row →
  let '(r, s', t) := run (process_match_confirmation match_id user_id chat_id) s in
  r = Ok NotAuthorized ∧
  s' = s ∧
  pending_matches (db s') !! match_id = Some row ∧
  matches (db s') = matches (db s) ∧
  players (db s') = players (db s) ∧
  rating_updates t = [] ∧
  engine_calls t = [] ∧
  telegram_calls t = [CallbackAnswer TxtOnlyParticipant].
Proof.
  intros [HW HL _ _] Hrow Huser.
  destruct (confirmation_by_outsider s match_id user_id chat_id row Hrow Huser)
    as [(_ & _ & ->)|([?|?] & _)]; done.
Qed.

Lemma outsider_confirmation_changes_nothing_witness :
  pending_ok (PendingMatch "1vs1" [1; 2] [1] [2] "11-9") ∧
  pending_matches (db one_pending) !! 1 = Some (PendingMatch "1vs1" [1; 2] [1] [2] "11-9") ∧
  (3 ∉ ([1] ++ [2] : list Z)) ∧
  (run (H := whole_powers_of_ten) (process_match_confirmation 1 3 77) one_pending).1.1
    = Ok NotAuthorized ∧
  (run (H := whole_powers_of_ten) (process_match_confirmation 1 3 77) one_pending).1.2
    = one_pending.
Proof.
  assert (Hrow : pending_matches (db one_pending) !! 1
                 = Some (PendingMatch "1vs1" [1; 2] [1] [2] "11-9")).
  { vm_compute. reflexivity. }
  assert (Hout : 3 ∉ ([1] ++ [2] : list Z)).
  { apply (bool_decide_unpack _). vm_compute. exact I. }
  split; [exact singles_row_ok|]. split; [exact Hrow|]. split; [exact Hout|].
  pose proof (outsider_confirmation_changes_nothing (H := whole_powers_of_ten)
                one_pending 1 3 77 _ singles_row_ok Hrow Hout) as Hthm.
  destruct (run _ _) as [[r s'] t]. destruct Hthm as (-> & -> & _). done.
Defined.
(** ** Reports with a repeated participant *)

(** C5, as amended: a report whose tags resolve to ids with a repeat is
    turned down by the submission handler before [add_pending_match] is
    called: the database and the job store are as they were. The check
    is the handler's; [add_pending_match] stores what it is given. *)
Theorem report_with_repeated_id_is_rejected `{Libm}
    (s : Bot) (message : message) (ids : list Z) :
  mapM (get_user_id_by_tag (db s)) (tags_of message) = Some ids →
  ¬ NoDup ids →
  let '(r, s', t) := run (handle_new_result_command message) s in
  (∃ why, r = Ok (Rejected why)) ∧ db s' = db s ∧ jobs s' = jobs s.
Proof.
  intros Hids Hdup.
  destruct (run _ s) as [[r s'] t] eqn:Hrun.
  apply new_result_run in Hrun
    as [?|(mt & W & L & _ & _ & _ & Hres & Hnodup & _)]; [done|].
  rewrite Hids in Hres. injection Hres as ->. done.
Qed.

Lemma report_with_repeated_id_is_rejected_witness :
  mapM (get_user_id_by_tag (db four_players)) (tags_of repeated_report)
    = Some [1; 2; 1; 3] ∧
  ¬ NoDup [1; 2; 1; 3] ∧
  (run (H := whole_powers_of_ten) (handle_new_result_command repeated_report)
     four_players).1.1 = Ok (Rejected TxtNotUnique) ∧
  db (run (H := whole_powers_of_ten) (handle_new_result_command repeated_report)
        four_players).1.2 = db four_players.
Proof.
  assert (Hids : mapM (get_user_id_by_tag (db four_players)) (tags_of repeated_report)
                 = Some [1; 2; 1; 3]) by (vm_compute; reflexivity).
  assert (Hdup : ¬ NoDup [1; 2; 1; 3]).
  { intros Hn. apply NoDup_cons in Hn as [Hn _]. apply Hn. rewrite !elem_of_cons. by right; left. }
  split; [exact Hids|]. split; [exact Hdup|].
  pose proof (report_with_repeated_id_is_rejected (H := whole_powers_of_ten)
                four_players repeated_report _ Hids Hdup) as Hthm.
  split; [vm_compute; reflexivity|].
  destruct (run _ _) as [[r s'] t]. cbn [fst snd]. by destruct Hthm as (_ & -> & _).
Defined.

(** C5, as stated, fails: [add_pending_match], given winners and losers
    that share an id, stores the row and returns its id. *)
Lemma add_pending_match_checks_nothing :
  let '(match_id, d) :=
    add_pending_match (db four_players) "2vs2" [1; 2; 1; 3] [1; 2] [1; 3] "11-9" in
  ¬ NoDup ([1; 2] ++ [1; 3] : list Z) ∧
  match_id = 1 ∧
  pending_matches (db four_players) !! 1 = None ∧
  pending_matches d !! 1 = Some (PendingMatch "2vs2" [1; 2; 1; 3] [1; 2] [1; 3] "11-9").
Proof.
  split; [|vm_compute; done].
  intros Hn. apply NoDup_cons in Hn as [Hn _]. apply Hn. rewrite !elem_of_cons. by right; left.
Qed.

(** ** Zero sum *)

Lemma sum_of_uniform (ids : list Z) (d : Z) :
  foldr Z.add 0 (((λ uid, (uid, d)) <$> ids).*2) = Z.of_nat (length ids) * d.
Proof. induction ids as [|i ids IH]; [done|]. cbn [fmap list_fmap foldr length snd]. lia. Qed.

Lemma filter_uniform_all (ids l : list Z) (d : Z) :
  (∀ x, x ∈ l → x ∈ ids) →
  filter (λ ud : Z * Z, ud.1 ∈ ids) ((λ uid, (uid, d)) <$> l) = (λ uid, (uid, d)) <$> l.
Proof.
  induction l as [|x l IH]; intros Hl; [done|]. cbn [fmap list_fmap].
  rewrite filter_cons_True by (apply Hl; left).
  f_equal. apply IH. intros y Hy. apply Hl. by right.
Qed.

Lemma filter_uniform_none (ids l : list Z) (d : Z) :
  (∀ x, x ∈ l → x ∉ ids) →
  filter (λ ud : Z * Z, ud.1 ∈ ids) ((λ uid, (uid, d)) <$> l) = [].
Proof.
  induction l as [|x l IH]; intros Hl; [done|]. cbn [fmap list_fmap].
  rewrite filter_cons_False by (apply Hl; left).
  apply IH. intros y Hy. apply Hl. by right.
Qed.

Lemma changes_of_settlement (W L : list Z) (delta_r : Z) (t : list made) :
  NoDup (W ++ L) →
  rating_updates t = settlement_updates W L delta_r →
  changes_to W t = Z.of_nat (length W) * delta_r ∧
  changes_to L t = Z.of_nat (length L) * - delta_r.
Proof.
  intros [_ [Hdisj _]]%NoDup_app Ht.
  unfold changes_to. rewrite Ht. unfold settlement_updates. rewrite !filter_app.
  split.
  - rewrite filter_uniform_all by done.
    rewrite filter_uniform_none by (intros x Hx HW; by apply (Hdisj x)).
    rewrite app_nil_r. apply sum_of_uniform.
  - rewrite filter_uniform_none by (intros x Hx HL; by apply (Hdisj x)).
    rewrite filter_uniform_all by done.
    apply sum_of_uniform.
Qed.



(** ** Doubles *)

Lemma team_input_of_two (d : Database) (a b : Z) :
  team_input d [a; b]
  = (ra ← get_player_rating d a;
     rb ← get_player_rating d b;
     Py.int_truediv (ra + rb) 2 ≫= Py.int_of_float).
Proof.
  unfold team_input. cbn [mapM].
  destruct (get_player_rating d a) as [ra|]; [|done].
  destruct (get_player_rating d b) as [rb|]; [|done].
  cbn [mbind result_bind mret result_ret]. unfold average.
  cbn [foldr length]. by rewrite Z.add_0_r.
Qed.

(** C2, as amended: a doubles confirmation that gets as far as the
    rating updates has invoked the engine once; its two inputs are,
    for each team, the float quotient of the sum of the two members'
    rounded ratings by 2, cut to an int by [int()]; the delta it
    returned is applied as [+delta_r] to both winners and as
    [-delta_r] to both losers. The inputs are the means without their
    fraction, not the exact means. *)
Theorem doubles_settlement_uses_cut_means `{Libm}
    (s s' : Bot) (match_id user_id chat_id : Z) (row : pending_match)
    (w1 w2 l1 l2 : Z) (r : result settlement) (t : list made) :
  pending_matches (db s) !! match_id = Some row →
  pm_winner_ids row = [w1; w2] →
  pm_loser_ids row = [l1; l2] →
  run (process_match_confirmation match_id user_id chat_id) s = (r, s', t) →
  rating_updates t ≠ [] →
  ∃ rw1 rw2 rl1 rl2 aw al delta_r,
    get_player_rating (db s) w1 = Ok rw1 ∧
    get_player_rating (db s) w2 = Ok rw2 ∧
    get_player_rating (db s) l1 = Ok rl1 ∧
    get_player_rating (db s) l2 = Ok rl2 ∧
    Py.int_truediv (rw1 + rw2) 2 ≫= Py.int_of_float = Ok aw ∧
    Py.int_truediv (rl1 + rl2) 2 ≫= Py.int_of_float = Ok al ∧
    engine_calls t = [(aw, al)] ∧
    calculate_elo_change aw al = Ok delta_r ∧
    rating_updates t = [(w1, delta_r); (w2, delta_r); (l1, - delta_r); (l2, - delta_r)] ∧
    db s' = updated (db s) row delta_r.
Proof.
  intros Hrow HW HL Hrun Hsome.
  destruct (confirmation_with_updates _ _ _ _ _ _ _ Hrun Hsome)
    as (row' & aw & al & delta_r & Hrow' & _ & Hsettle & _ & -> & ->).
  rewrite Hrow in Hrow'. injection Hrow' as <-.
  destruct (record_of_confirmation match_id row aw al delta_r)
    as (Hupd & Hcalls & _). cbn zeta in Hupd, Hcalls.
  rewrite HW, HL in Hsettle, Hupd.
  unfold settle in Hsettle. rewrite !team_input_of_two in Hsettle.
  destruct (get_player_rating (db s) w1) as [rw1|]; [|discriminate].
  destruct (get_player_rating (db s) w2) as [rw2|]; [|discriminate].
  cbn [mbind result_bind] in Hsettle.
  destruct (Py.int_truediv (rw1 + rw2) 2 ≫= Py.int_of_float) as [aw'|] eqn:Haw;
    [|discriminate].
  destruct (get_player_rating (db s) l1) as [rl1|]; [|discriminate].
  destruct (get_player_rating (db s) l2) as [rl2|]; [|discriminate].
  cbn [mbind result_bind] in Hsettle.
  destruct (Py.int_truediv (rl1 + rl2) 2 ≫= Py.int_of_float) as [al'|] eqn:Hal;
    [|discriminate].
  cbn [mbind result_bind] in Hsettle.
  destruct (calculate_elo_change aw' al') as [d|] eqn:Helo; [|discriminate].
  injection Hsettle as -> -> ->.
  exists rw1, rw2, rl1, rl2, aw, al, delta_r. done.
Qed.

Lemma doubles_settlement_uses_cut_means_witness :
  pending_matches (db doubles_pending) !! 1
    = Some (PendingMatch "2vs2" [1; 2; 3; 4] [1; 2] [3; 4] "11-9") ∧
  rating_updates
    (run (H := whole_powers_of_ten) (process_match_confirmation 1 3 77)
       doubles_pending).2 ≠ [] ∧
  ∃ aw al delta_r,
    engine_calls
      (run (H := whole_powers_of_ten) (process_match_confirmation 1 3 77)
         doubles_pending).2 = [(aw, al)] ∧
    rating_updates
      (run (H := whole_powers_of_ten) (process_match_confirmation 1 3 77)
         doubles_pending).2
    = [(1, delta_r); (2, delta_r); (3, - delta_r); (4, - delta_r)].
Proof.
  assert (Hrow : pending_matches (db doubles_pending) !! 1
                 = Some (PendingMatch "2vs2" [1; 2; 3; 4] [1; 2] [3; 4] "11-9")).
  { vm_compute. reflexivity. }
  assert (Hsome : rating_updates
            (run (H := whole_powers_of_ten) (process_match_confirmation 1 3 77)
               doubles_pending).2 ≠ []).
  { vm_compute. discriminate. }
  split; [exact Hrow|]. split; [exact Hsome|].
  destruct (doubles_settlement_uses_cut_means (H := whole_powers_of_ten)
              doubles_pending _ 1 3 77 _ 1 2 3 4 _ _ Hrow eq_refl eq_refl
              (run_eta _ _) Hsome)
    as (rw1 & rw2 & rl1 & rl2 & aw & al & delta_r
        & _ & _ & _ & _ & _ & _ & Hcalls & _ & Hupd & _).
  exists aw, al, delta_r. split; [exact Hcalls|exact Hupd].
Defined.

(** C2, as stated, fails: with winners at 1000 and 1001 the engine is
    given 1000, which is not their mean, and the delta it returns for
    that input is what the four players get. *)
Lemma doubles_engine_input_is_not_the_mean :
  mapM (get_player_rating (db uneven_doubles)) [1; 2] = Ok [1000; 1001] ∧
  engine_calls
    (run (H := whole_powers_of_ten) (process_match_confirmation 1 3 77) uneven_doubles).2
    = [(1000, 1000)] ∧
  rating_updates
    (run (H := whole_powers_of_ten) (process_match_confirmation 1 3 77) uneven_doubles).2
    = [(1, 8); (2, 8); (3, -8); (4, -8)] ∧
  ¬ exact_mean 1000 [1000; 1001].
Proof.
  split; [vm_compute; reflexivity|]. split; [vm_compute; reflexivity|].
  split; [vm_compute; reflexivity|]. unfold exact_mean. cbn. lia.
Qed.

(** ** A delta of zero *)

Lemma players_of_apply_updates_other (d : Database) (updates : list (Z * Z)) (uid : Z) :
  uid ∉ updates.*1 → players (apply_updates d updates) !! uid = players d !! uid.
Proof.
  revert d. induction updates as [|[u x] us IH]; intros d Hout; [done|].
  cbn [fmap list_fmap fst] in Hout. apply not_elem_of_cons in Hout as [Hne Hout].
  change (apply_updates d ((u, x) :: us))
    with (apply_updates (update_player_rating d u x) us).
  rewrite IH by done. cbn. by rewrite lookup_alter_ne.
Qed.

Lemma players_of_apply_updates_once (d : Database) (updates : list (Z * Z)) (uid x : Z) :
  NoDup updates.*1 → (uid, x) ∈ updates →
  players (apply_updates d updates) !! uid = adjust x <$> players d !! uid.
Proof.
  revert d. induction updates as [|[u y] us IH]; intros d Hnodup Hin.
  { by apply elem_of_nil in Hin. }
  cbn [fmap list_fmap fst] in Hnodup. apply NoDup_cons in Hnodup as [Hu Hnodup].
  change (apply_updates d ((u, y) :: us))
    with (apply_updates (update_player_rating d u y) us).
  apply elem_of_cons in Hin as [[= -> ->]|Hin].
  - rewrite players_of_apply_updates_other by done. cbn. by rewrite lookup_alter_eq.
  - assert (uid ≠ u).
    { intros ->. apply Hu. apply list_elem_of_fmap. by exists (u, x). }
    rewrite IH by done. cbn. by rewrite lookup_alter_ne.
Qed.

Lemma settlement_updates_ids (W L : list Z) (delta_r : Z) :
  (settlement_updates W L delta_r).*1 = W ++ L.
Proof.
  unfold settlement_updates. rewrite fmap_app, <- !list_fmap_compose.
  f_equal; apply list_fmap_id.
Qed.

Lemma players_of_updated (d : Database) (row : pending_match) (delta_r : Z) :
  players (updated d row delta_r)
  = players (apply_updates d
      (settlement_updates (pm_winner_ids row) (pm_loser_ids row) delta_r)).
Proof. reflexivity. Qed.

(** The two doubles are next to each other and 10^-5 lies between
    them. *)
Lemma doubles_around_1e_5 :
  Prim2SF below_1e_5 = S754_finite false 5902958103587056 (-69) ∧
  Prim2SF above_1e_5 = S754_finite false 5902958103587057 (-69) ∧
  5902958103587056 * 10 ^ 5 < 2 ^ 69 < 5902958103587057 * 10 ^ 5.
Proof. split; [|split]; [vm_compute; reflexivity..|lia]. Qed.

Lemma elo_3000_1000 `{Libm} :
  pow_within_one_ulp_at_minus_5 → calculate_elo_change 3000 1000 = Ok 0.
Proof.
  intros Hpow.
  assert (Hx : Py.int_div_float (1000 - 3000) 400%float = Ok (-5)%float)
    by (vm_compute; reflexivity).
  unfold calculate_elo_change, raw_delta, expected_score_winner.
  rewrite Hx. cbn [mbind result_bind]. unfold Py.pow10.
  change (PrimFloat.eqb (-5) 0) with false.
  change (PrimFloat.is_nan (-5)) with false.
  change (PrimFloat.is_infinity (-5)) with false.
  cbv iota.
  destruct Hpow as [-> | ->]; vm_compute; reflexivity.
Qed.

(** C10: with a [pow] that is within one unit in the last place at
    [10.0 ** -5.0], a winner at 3000 against a loser at 1000 gets a
    delta of 0; and a confirmation whose updates carry a delta of 0
    counts a loss for every participant, winners too, and a win for
    nobody. *)
Theorem zero_delta_is_a_loss_for_everyone `{Libm} :
  pow_within_one_ulp_at_minus_5 →
  calculate_elo_change 3000 1000 = Ok 0 ∧
  ∀ (s s' : Bot) (match_id user_id chat_id : Z) (row : pending_match)
    (r : result settlement) (t : list made),
    pending_matches (db s) !! match_id = Some row →
    NoDup (pm_winner_ids row ++ pm_loser_ids row) →
    run (process_match_confirmation match_id user_id chat_id) s = (r, s', t) →
    rating_updates t = settlement_updates (pm_winner_ids row) (pm_loser_ids row) 0 →
    ∀ (uid : Z) (p : player),
      uid ∈ pm_winner_ids row ++ pm_loser_ids row →
      players (db s) !! uid = Some p →
      ∃ p', players (db s') !! uid = Some p' ∧
            p_losses p' = p_losses p + 1 ∧ p_wins p' = p_wins p.
Proof.
  intros Hpow. split; [by apply elo_3000_1000|].
  intros s s' match_id user_id chat_id row r t Hrow Hunique Hrun Hzero uid p Huid Hp.
  assert (Hsome : rating_updates t ≠ []).
  { rewrite Hzero. unfold settlement_updates.
    destruct (pm_winner_ids row), (pm_loser_ids row); try done.
    by apply elem_of_nil in Huid. }
  destruct (confirmation_with_updates _ _ _ _ _ _ _ Hrun Hsome)
    as (row' & aw & al & delta_r & Hrow' & _ & Hsettle & _ & -> & ->).
  rewrite Hrow in Hrow'. injection Hrow' as <-.
  destruct (record_of_confirmation match_id row aw al delta_r) as (Hupd & _).
  cbn zeta in Hupd. rewrite Hupd in Hzero.
  assert (delta_r = 0) as ->.
  { unfold settle in Hsettle.
    destruct (team_input (db s) (pm_winner_ids row)) as [a|] eqn:Ha; [|discriminate].
    apply team_input_nonempty in Ha. unfold settlement_updates in Hzero.
    destruct (pm_winner_ids row) as [|w W]; [done|]. by injection Hzero. }
  cbn [db with_db]. rewrite players_of_updated.
  rewrite (players_of_apply_updates_once _ _ uid 0).
  - rewrite Hp. eexists. split; [reflexivity|]. done.
  - by rewrite settlement_updates_ids.
  - unfold settlement_updates. apply elem_of_app.
    apply elem_of_app in Huid as [Hw|Hl]; [left|right];
      apply list_elem_of_fmap; by exists uid.
Qed.

Lemma zero_delta_is_a_loss_for_everyone_witness :
  pow_within_one_ulp_at_minus_5 (H := whole_powers_of_ten) ∧
  calculate_elo_change (H := whole_powers_of_ten) 3000 1000 = Ok 0 ∧
  rating_updates
    (run (H := whole_powers_of_ten) (process_match_confirmation 1 2 77) mismatch).2
    = settlement_updates [1] [2] 0 ∧
  ∃ p',
    players (db (run (H := whole_powers_of_ten) (process_match_confirmation 1 2 77)
                   mismatch).1.2) !! 1 = Some p' ∧
    p_losses p' = 1 ∧ p_wins p' = 0.
Proof.
  assert (Hpow : pow_within_one_ulp_at_minus_5 (H := whole_powers_of_ten)).
  { right. vm_compute. reflexivity. }
  assert (Hzero : rating_updates
            (run (H := whole_powers_of_ten) (process_match_confirmation 1 2 77) mismatch).2
            = settlement_updates [1] [2] 0).
  { vm_compute. reflexivity. }
  assert (Hrow : pending_matches (db mismatch) !! 1
                 = Some (PendingMatch "1vs1" [1; 2] [1] [2] "11-9")).
  { vm_compute. reflexivity. }
  assert (Hp : players (db mismatch) !! 1
               = Some (with_rating 3000%float (new_player "ann" "Ann"))).
  { vm_compute. reflexivity. }
  assert (Hunique : NoDup ([1] ++ [2] : list Z)).
  { apply (bool_decide_unpack _). vm_compute. exact I. }
  assert (Hin : 1 ∈ ([1] ++ [2] : list Z)) by (left).
  destruct (zero_delta_is_a_loss_for_everyone (H := whole_powers_of_ten) Hpow)
    as [Helo Hall].
  split; [exact Hpow|]. split; [exact Helo|]. split; [exact Hzero|].
  exact (Hall mismatch _ 1 2 77 _ _ _ Hrow Hunique (run_eta _ _) Hzero 1 _ Hin Hp).
Defined.

(** ** Confirmation against the timer *)

Section Race.
Context `{Libm}.

Lemma surely_step {A : Type} (R : A → Prop) (p : prog A) (s : Bot) :
  surely R p → surely R (step p s).1.
Proof.
  intros Hp. destruct Hp as [a Ha|X c k Hk]; cbn.
  - by constructor.
  - destruct (exec c s) as [x s1]. apply Hk.
Qed.

Lemma surely_ended {A : Type} (R : A → Prop) (p : prog A) (r : result A) :
  surely R p → ended p = Some r → ∃ a, r = Ok a ∧ R a.
Proof. intros [a Ha|X c k Hk]; cbn; [|done]. intros [= <-]. eauto. Qed.

Lemma surely_do_then {A X : Type} (R : A → Prop) (c : call X) (f : X → prog A) :
  (∀ x, surely R (f x)) → surely R (do c ≫= f).
Proof. intros Hf. unfold do. cbn. constructor. exact Hf. Qed.

Lemma leaves_bind {A B : Type} (match_id : Z) (p : prog A) (f : A → prog B) :
  leaves_pending match_id p → (∀ a, leaves_pending match_id (f a)) →
  leaves_pending match_id (p ≫= f).
Proof.
  intros Hp Hf. induction Hp as [a|e|X c k Hc Hk IH]; cbn.
  - apply Hf.
  - constructor.
  - constructor; [exact Hc|exact IH].
Qed.

Lemma leaves_do {X : Type} (match_id : Z) (c : call X) :
  (∀ s, is_pending match_id s → is_pending match_id (exec c s).2) →
  leaves_pending match_id (do c).
Proof. intros Hc. unfold do. constructor; [exact Hc|]. intros x. constructor. Qed.

Lemma leaves_lift {A : Type} (match_id : Z) (r : result A) :
  leaves_pending match_id (lift r).
Proof. destruct r; constructor. Qed.

Lemma leaves_do_try {A : Type} (match_id : Z) (c : call (result A)) :
  (∀ s, is_pending match_id s → is_pending match_id (exec c s).2) →
  leaves_pending match_id (do_try c).
Proof.
  intros Hc. unfold do_try. apply leaves_bind; [by apply leaves_do|].
  apply leaves_lift.
Qed.

Lemma leaves_collect {A B : Type} (match_id : Z) (l : list A) (f : A → prog B) :
  (∀ x, leaves_pending match_id (f x)) → leaves_pending match_id (collect l f).
Proof.
  intros Hf. induction l as [|x l IH]; cbn [collect]; [constructor|].
  apply leaves_bind; [apply Hf|]. intros y.
  apply leaves_bind; [exact IH|]. intros ys. constructor.
Qed.

Lemma leaves_for_each {A : Type} (match_id : Z) (l : list A) (body : A → prog unit) :
  (∀ x, leaves_pending match_id (body x)) → leaves_pending match_id (for_each l body).
Proof.
  intros Hf. induction l as [|x l IH]; cbn [for_each]; [constructor|].
  apply leaves_bind; [apply Hf|]. intros _. exact IH.
Qed.

Lemma leaves_step {A : Type} (match_id : Z) (p : prog A) (s : Bot) :
  leaves_pending match_id p → is_pending match_id s →
  leaves_pending match_id (step p s).1 ∧ is_pending match_id (step p s).2.
Proof.
  intros Hp Hs. destruct Hp as [a|e|X c k Hc Hk]; cbn.
  - split; [constructor|done].
  - split; [constructor|done].
  - specialize (Hc s Hs). specialize (Hk (exec c s).1).
    destruct (exec c s) as [x s1]. by split.
Qed.

Lemma confirmation_leaves_pending (match_id user_id chat_id : Z) :
  leaves_pending match_id (process_match_confirmation match_id user_id chat_id).
Proof.
  unfold process_match_confirmation.
  apply leaves_bind; [by apply leaves_do|].
  intros [[[[mt W] L] sc]|].
  2:{ apply leaves_bind; [by apply leaves_do|]. intros _.
      apply leaves_bind; [by apply leaves_do|]. intros _. constructor. }
  apply leaves_bind; [apply leaves_lift|]. intros winner_ids.
  apply leaves_bind; [apply leaves_lift|]. intros loser_ids.
  destruct (bool_decide _).
  { apply leaves_bind; [by apply leaves_do|]. intros _. constructor. }
  apply leaves_bind.
  { apply leaves_collect. intros uid. by apply leaves_do_try. }
  intros winner_ratings. apply leaves_bind.
  { apply leaves_collect. intros uid. by apply leaves_do_try. }
  intros loser_ratings.
  apply leaves_bind; [apply leaves_lift|]. intros avw.
  apply leaves_bind; [apply leaves_lift|]. intros avl.
  apply leaves_bind; [apply leaves_lift|]. intros aw.
  apply leaves_bind; [apply leaves_lift|]. intros al.
  apply leaves_bind; [by apply leaves_do_try|]. intros delta_r.
  apply leaves_bind.
  { apply leaves_for_each. intros uid. by apply leaves_do. }
  intros _. apply leaves_bind.
  { apply leaves_for_each. intros uid. by apply leaves_do. }
  intros _. apply leaves_bind; [by apply leaves_do_try|]. intros _.
  apply leaves_bind; [by apply leaves_do|]. intros _.
  apply leaves_bind; [by apply leaves_do|]. intros _.
  apply leaves_bind; [by apply leaves_do|]. intros _. constructor.
Qed.

Lemma cannot_step (c : prog settlement) (s : Bot) :
  cannot_finalize c → cannot_finalize (step c s).1.
Proof.
  intros Hc. destruct Hc as [o Ho|e|X cc k Hk]; cbn.
  - by constructor.
  - constructor.
  - specialize (Hk s). by destruct (exec cc s) as [x s1].
Qed.

Lemma cannot_ended (c : prog settlement) (rc : result settlement) :
  cannot_finalize c → ended c = Some rc → ∀ delta_r, rc ≠ Ok (Finalized delta_r).
Proof.
  intros [o Ho|e|X cc k Hk]; cbn; [| |done].
  - intros [= <-] delta_r [= ->]. by apply (Ho delta_r).
  - by intros [= <-] delta_r.
Qed.

Lemma cannot_bind {A : Type} (p : prog A) (f : A → prog settlement) :
  (∀ a, cannot_finalize (f a)) → cannot_finalize (p ≫= f).
Proof.
  intros Hf. induction p as [a|e|X c k IH]; cbn.
  - apply Hf.
  - constructor.
  - constructor. intros s. apply IH.
Qed.

Lemma cannot_of_outcome (o : settlement) :
  (∀ delta_r, o ≠ Finalized delta_r) → cannot_finalize (Ret o).
Proof. by constructor. Qed.

(** No confirmation comes to return [Finalized]: the only way there
    leads through [finalize_match]. *)
Lemma confirmation_cannot_finalize (match_id user_id chat_id : Z) :
  cannot_finalize (process_match_confirmation match_id user_id chat_id).
Proof.
  unfold process_match_confirmation.
  apply cannot_bind. intros [[[[mt W] L] sc]|].
  2:{ apply cannot_bind. intros _. apply cannot_bind. intros _. by constructor. }
  apply cannot_bind. intros winner_ids. apply cannot_bind. intros loser_ids.
  destruct (bool_decide _).
  { apply cannot_bind. intros _. by constructor. }
  do 7 (apply cannot_bind; intros ?). do 2 (apply cannot_bind; intros _).
  unfold do_try, do. cbn [mbind prog_mbind prog_bind].
  constructor. intros s. cbn [exec fst].
  rewrite finalize_match_is_locked_out. cbn. constructor.
Qed.

Lemma expiry_after_lookup (match_id chat_id original_message_id : Z) (s : Bot) :
  (step (delete_pending_match_job match_id chat_id original_message_id) s).2 = s ∧
  ((is_pending match_id s ∧
    surely (λ o, o = Expired)
      (step (delete_pending_match_job match_id chat_id original_message_id) s).1)
   ∨ (¬ is_pending match_id s ∧
      (step (delete_pending_match_job match_id chat_id original_message_id) s).1
      = Ret NothingToExpire)).
Proof.
  unfold delete_pending_match_job, do. cbn. split; [done|].
  unfold is_pending, get_pending_match.
  destruct (pending_matches (db s) !! match_id) as [row|]; cbn.
  - left. split; [by eexists|]. repeat constructor.
  - right. split; [by intros [? ?]|done].
Qed.

Lemma race_confirmation_step (match_id chat_id original_message_id : Z)
    (c : prog settlement) (t : prog expiry) (s : Bot) :
  race_invariant match_id chat_id original_message_id c t s →
  race_invariant match_id chat_id original_message_id (step c s).1 t (step c s).2.
Proof.
  intros [Hc [Ht|(Ht & Hs & Hl)]]; (split; [by apply cannot_step|]).
  - by left.
  - right. split; [done|]. by destruct (leaves_step match_id c s Hl Hs).
Qed.

Lemma race_timer_step (match_id chat_id original_message_id : Z)
    (c : prog settlement) (t : prog expiry) (s : Bot) :
  race_invariant match_id chat_id original_message_id c t s →
  race_invariant match_id chat_id original_message_id c (step t s).1 (step t s).2.
Proof.
  intros [Hc [Ht|(-> & Hs & Hl)]]; (split; [done|]).
  - left. by apply surely_step.
  - destruct (expiry_after_lookup match_id chat_id original_message_id s)
      as [_ [[_ Hexp]|[Hno _]]]; [by left|done].
Qed.

Lemma race_invariant_at_the_start (match_id user_id chat_id job_chat_id
    original_message_id : Z) (s : Bot) :
  is_pending match_id s →
  race_invariant match_id job_chat_id original_message_id
    (process_match_confirmation match_id user_id chat_id)
    (delete_pending_match_job match_id job_chat_id original_message_id) s.
Proof.
  intros Hs. split; [apply confirmation_cannot_finalize|].
  right. split; [done|]. split; [done|]. apply confirmation_leaves_pending.
Qed.

Lemma race_invariant_holds (match_id chat_id original_message_id : Z)
    (schedule : list turn) (c : prog settlement) (t : prog expiry) (s : Bot) :
  race_invariant match_id chat_id original_message_id c t s →
  let '(c', t', s') := interleave schedule c t s in
  race_invariant match_id chat_id original_message_id c' t' s'.
Proof.
  revert c t s. induction schedule as [|[|] schedule IH]; intros c t s Hinv; cbn.
  - exact Hinv.
  - apply race_confirmation_step in Hinv.
    destruct (step c s) as [c1 s1]. by apply IH.
  - apply race_timer_step in Hinv.
    destruct (step t s) as [t1 s1]. by apply IH.
Qed.

Lemma race_invariant_at_the_end (match_id chat_id original_message_id : Z)
    (c : prog settlement) (t : prog expiry) (s : Bot)
    (rc : result settlement) (rt : result expiry) :
  race_invariant match_id chat_id original_message_id c t s →
  ended c = Some rc → ended t = Some rt → exactly_one rc rt.
Proof.
  intros [Hc [Ht|(-> & _)]] Hrc Hrt; [|discriminate].
  right. split; [by apply (cannot_ended c)|].
  by destruct (surely_ended _ _ _ Ht Hrt) as (o & -> & ->).
Qed.

End Race.

(** ** Confirmation and the timer on one event loop *)

Section Turns.
Context `{Libm}.

(** A turn on the event loop is a run of steps. *)
Lemma race_confirmation_turn (match_id chat_id original_message_id : Z)
    (c : prog settlement) (t : prog expiry) (s : Bot) :
  race_invariant match_id chat_id original_message_id c t s →
  race_invariant match_id chat_id original_message_id
    (to_next_await c s).1 t (to_next_await c s).2.
Proof.
  revert s. induction c as [o|e|X cc k IH]; intros s Hinv; [done|done|].
  apply race_confirmation_step in Hinv. cbn [step to_next_await] in *.
  destruct (exec cc s) as [x s1]. destruct (is_await cc); [done|].
  by apply IH.
Qed.

Lemma race_timer_turn (match_id chat_id original_message_id : Z)
    (c : prog settlement) (t : prog expiry) (s : Bot) :
  race_invariant match_id chat_id original_message_id c t s →
  race_invariant match_id chat_id original_message_id
    c (to_next_await t s).1 (to_next_await t s).2.
Proof.
  intros [Hc Hrest]. split; [done|].
  destruct Hrest as [Ht|(-> & Hs & Hl)].
  - left. revert s. induction Ht as [o Ho|X cc k Hk IH]; intros s; cbn.
    + by constructor.
    + destruct (exec cc s) as [x s1]. destruct (is_await cc); [apply Hk|apply IH].
  - left. unfold delete_pending_match_job, do. cbn.
    destruct Hs as [row Hrow]. unfold get_pending_match. rewrite Hrow. cbn.
    repeat constructor.
Qed.

Lemma turns_invariant_holds (match_id chat_id original_message_id : Z)
    (schedule : list turn) (c : prog settlement) (t : prog expiry) (s : Bot) :
  race_invariant match_id chat_id original_message_id c t s →
  let '(c', t', s') := take_turns schedule c t s in
  race_invariant match_id chat_id original_message_id c' t' s'.
Proof.
  revert c t s. induction schedule as [|[|] schedule IH]; intros c t s Hinv; cbn.
  - exact Hinv.
  - apply race_confirmation_turn in Hinv.
    destruct (to_next_await c s) as [c1 s1]. by apply IH.
  - apply race_timer_turn in Hinv.
    destruct (to_next_await t s) as [t1 s1]. by apply IH.
Qed.

End Turns.




(** * Further properties of the code *)

(** ** The engine *)

(** X1: the delta depends on the two ratings only through their
    difference: the same gap gives the same K-factor and the same
    delta at every level of the scale. *)
Theorem elo_change_depends_on_the_gap `{Libm} (rw rl rw' rl' : Z) :
  rw - rl = rw' - rl' →
  calculate_k_factor rw rl = calculate_k_factor rw' rl' ∧
  calculate_elo_change rw rl = calculate_elo_change rw' rl'.
Proof.
  intros Hgap.
  unfold calculate_elo_change, raw_delta, expected_score_winner, calculate_k_factor.
  replace (rl - rw) with (rl' - rw') by lia. by rewrite Hgap.
Qed.

Lemma elo_change_depends_on_the_gap_witness :
  1400 - 1000 = 2900 - 2500 ∧
  calculate_elo_change (H := whole_powers_of_ten) 1400 1000 = Ok 2 ∧
  calculate_elo_change (H := whole_powers_of_ten) 2900 2500 = Ok 2.
Proof.
  assert (Hgap : 1400 - 1000 = 2900 - 2500) by lia.
  assert (Hlow : calculate_elo_change (H := whole_powers_of_ten) 1400 1000 = Ok 2)
    by (vm_compute; reflexivity).
  split; [exact Hgap|]. split; [exact Hlow|].
  rewrite <- (proj2 (elo_change_depends_on_the_gap (H := whole_powers_of_ten)
                       1400 1000 2900 2500 Hgap)).
  exact Hlow.
Defined.

(** X2: two equal ratings, whatever they are, give a delta of 8,
    whatever the C library's [pow] is. *)
Theorem equal_ratings_move_by_eight `{Libm} (r : Z) :
  calculate_elo_change r r = Ok 8.
Proof.
  unfold calculate_elo_change, raw_delta, expected_score_winner, calculate_k_factor.
  rewrite Z.sub_diag. vm_compute. reflexivity.
Qed.

(** ** The tables *)

(** X3: a pending result that was just added is read back as it was
    given, under the id that was returned; the rows under other ids
    and the other tables are as before. *)
Theorem pending_match_round_trip (d : Database) (match_type : string)
    (participants winner_ids loser_ids : list Z) (score : string) :
  let '(match_id, d') :=
    add_pending_match d match_type participants winner_ids loser_ids score in
  get_pending_match d' match_id = Some (match_type, winner_ids, loser_ids, score) ∧
  (∀ k, k ≠ match_id → get_pending_match d' k = get_pending_match d k) ∧
  players d' = players d ∧ matches d' = matches d ∧ user_mapping d' = user_mapping d.
Proof.
  unfold add_pending_match, get_pending_match. cbn. repeat split.
  - by rewrite lookup_insert_eq.
  - intros k Hk. by rewrite lookup_insert_ne.
Qed.

(** X4: [delete_match_by_id] tells whether there was a row under the id,
    removes that row of the history and no other, leaves players and
    pending results as they are, and a second call finds nothing and
    changes nothing. *)
Theorem delete_match_by_id_removes_one_row (d : Database) (match_id : Z) :
  let '(found, d') := delete_match_by_id d match_id in
  (found = true ↔ is_Some (matches d !! match_id)) ∧
  matches d' !! match_id = None ∧
  (∀ k, k ≠ match_id → matches d' !! k = matches d !! k) ∧
  players d' = players d ∧
  pending_matches d' = pending_matches d ∧
  delete_match_by_id d' match_id = (false, d').
Proof.
  unfold delete_match_by_id. cbn. repeat split.
  - by intros ?%bool_decide_eq_true.
  - intros ?. by apply bool_decide_eq_true.
  - apply lookup_delete_eq.
  - intros k Hk. by apply lookup_delete_ne.
  - f_equal.
    + apply bool_decide_eq_false. rewrite lookup_delete_eq. by intros [? ?].
    + unfold set_matches; cbn. f_equal. apply delete_id, lookup_delete_eq.
Qed.

(** X5: an update for a player id that has no row changes nothing. *)
Theorem update_of_unknown_player_changes_nothing (d : Database) (user_id delta_rating : Z) :
  players d !! user_id = None →
  update_player_rating d user_id delta_rating = d.
Proof.
  intros Hrow. unfold update_player_rating, set_players. destruct d as [ps um ms pm].
  cbn in *. f_equal. apply map_eq. intros k. rewrite lookup_alter.
  case_decide as Hk; [|done]. subst k. by rewrite Hrow.
Qed.

Lemma update_of_unknown_player_changes_nothing_witness :
  players (db four_players) !! 9 = None ∧
  update_player_rating (db four_players) 9 8 = db four_players.
Proof.
  assert (Hrow : players (db four_players) !! 9 = None) by (vm_compute; reflexivity).
  split; [exact Hrow|].
  exact (update_of_unknown_player_changes_nothing (db four_players) 9 8 Hrow).
Defined.

(** ** Registration *)

Lemma username_taken_false (d : Database) (username : string) (but : Z) :
  username_taken d username but = false ↔
  ∀ i p, players d !! i = Some p → i ≠ but → p_username p ≠ username.
Proof.
  unfold username_taken. rewrite bool_decide_eq_false. split.
  - intros Hno i p Hp Hi Hu. apply Hno. exists i, p. done.
  - intros Hall (i & p & Hp & Hi & Hu). by apply (Hall i p).
Qed.

Lemma username_taken_true (d : Database) (username : string) (but : Z) :
  username_taken d username but = true ↔
  ∃ i p, players d !! i = Some p ∧ i ≠ but ∧ p_username p = username.
Proof.
  unfold username_taken. rewrite bool_decide_eq_true. split.
  - intros (i & p & Hp & Hi & Hu). by exists i, p.
  - intros (i & p & Hp & Hi & Hu). by exists i, p.
Qed.

(** X6: a username that no other player carries takes
    [get_or_create_player] past its first write and to
    [update_user_mapping], whose write is refused the lock: the call
    raises, and [update_player_info], which drops the error, leaves the
    state as it was: no row, no tag, and a user who had no row is still
    without statistics. *)
Theorem registration_is_locked_out (s : Bot) (user_id : Z) (username full_name : string) :
  (∀ i p, players (db s) !! i = Some p → i ≠ user_id → p_username p ≠ username) →
  get_or_create_player (db s) user_id username full_name = Raise OperationalError ∧
  update_player_info s user_id username full_name = s ∧
  (players (db s) !! user_id = None →
   get_player_stats (db (update_player_info s user_id username full_name)) user_id
   = Ok None).
Proof.
  intros Hfree%username_taken_false.
  assert (Hraise : get_or_create_player (db s) user_id username full_name
                   = Raise OperationalError).
  { unfold get_or_create_player. by rewrite Hfree. }
  split; [exact Hraise|].
  rewrite update_player_info_keeps_the_state. split; [done|].
  intros Hnew. unfold get_player_stats. by rewrite Hnew.
Qed.

Lemma registration_is_locked_out_witness :
  (∀ i p, players (db four_players) !! i = Some p → i ≠ 5 → p_username p ≠ "eve"%string) ∧
  get_or_create_player (db four_players) 5 "eve" "Eve" = Raise OperationalError ∧
  update_player_info four_players 5 "eve" "Eve" = four_players.
Proof.
  assert (Hfree : ∀ i p, players (db four_players) !! i = Some p → i ≠ 5 →
                         p_username p ≠ "eve"%string).
  { apply username_taken_false. vm_compute. reflexivity. }
  destruct (registration_is_locked_out four_players 5 "eve" "Eve" Hfree)
    as (Hraise & Hsame & _).
  split; [exact Hfree|]. split; [exact Hraise|exact Hsame].
Defined.

(** X7: a username that another player carries is refused with an
    integrity error, and [update_player_info], which drops the error,
    then leaves the state as it was: no row is written and the tag keeps
    leading where it led. *)
Theorem registration_refuses_a_taken_username (s : Bot) (user_id other : Z)
    (username full_name : string) (p : player) :
  players (db s) !! other = Some p → other ≠ user_id → p_username p = username →
  get_or_create_player (db s) user_id username full_name = Raise IntegrityError ∧
  update_player_info s user_id username full_name = s.
Proof.
  intros Hp Hother Hname.
  assert (Htaken : username_taken (db s) username user_id = true).
  { apply username_taken_true. by exists other, p. }
  unfold update_player_info, get_or_create_player. by rewrite Htaken.
Qed.

Lemma registration_refuses_a_taken_username_witness :
  players (db four_players) !! 1 = Some (new_player "ann" "Ann") ∧
  1 ≠ 5 ∧
  get_or_create_player (db four_players) 5 "ann" "Ann Other" = Raise IntegrityError ∧
  update_player_info four_players 5 "ann" "Ann Other" = four_players.
Proof.
  assert (Hp : players (db four_players) !! 1 = Some (new_player "ann" "Ann"))
    by (vm_compute; reflexivity).
  assert (Hne : 1 ≠ 5) by lia.
  split; [exact Hp|]. split; [exact Hne|].
  exact (registration_refuses_a_taken_username four_players 5 1 "ann" "Ann Other" _
           Hp Hne eq_refl).
Defined.


(** ** What the handlers keep of the tables *)

Section Consistent.
Context `{Libm}.

Lemma players_of_update (d : Database) (u x i : Z) :
  players (update_player_rating d u x) !! i
  = if decide (u = i) then adjust x <$> players d !! i else players d !! i.
Proof.
  unfold update_player_rating. cbn. rewrite lookup_alter.
  case_decide; [by subst|done].
Qed.

Lemma usernames_of_apply_updates (d : Database) (updates : list (Z * Z)) (i : Z) :
  p_username <$> players (apply_updates d updates) !! i = p_username <$> players d !! i.
Proof.
  revert d. induction updates as [|[u x] us IH]; intros d; [done|].
  change (apply_updates d ((u, x) :: us))
    with (apply_updates (update_player_rating d u x) us).
  rewrite IH, players_of_update. case_decide; [|done].
  by destruct (players d !! i).
Qed.

Lemma registered_after_updates (d : Database) (updates : list (Z * Z)) (i : Z) :
  is_Some (players (apply_updates d updates) !! i) ↔ is_Some (players d !! i).
Proof.
  pose proof (usernames_of_apply_updates d updates i) as Heq.
  destruct (players (apply_updates d updates) !! i), (players d !! i);
    cbn in Heq; try discriminate; split; eauto.
  all: by intros [? ?].
Qed.

Lemma consistent_same_tables (d d' : Database) :
  consistent d →
  players d' = players d → user_mapping d' = user_mapping d →
  pending_matches d' = pending_matches d →
  consistent d'.
Proof.
  intros (Hu & Hr & Ht & Hp) Hpl Hmap Hpend.
  unfold consistent, unique_usernames, usernames_resolve, tags_registered,
    participants_registered.
  rewrite Hpl, Hmap, Hpend. done.
Qed.

Lemma consistent_after_updates (d : Database) (updates : list (Z * Z)) :
  consistent d → consistent (apply_updates d updates).
Proof.
  intros (Hu & Hr & Ht & Hp).
  destruct (pending_of_apply_updates d updates) as (Hpend & _ & Hmap).
  assert (Hname : ∀ i p, players (apply_updates d updates) !! i = Some p →
            ∃ q, players d !! i = Some q ∧ p_username q = p_username p).
  { intros i p Hi. pose proof (usernames_of_apply_updates d updates i) as Heq.
    rewrite Hi in Heq. destruct (players d !! i) as [q|]; [|done].
    exists q. split; [done|]. by injection Heq. }
  split; [|split; [|split]].
  - intros i j p q Hi Hj Heq.
    destruct (Hname i p Hi) as (p0 & Hp0 & Hn0).
    destruct (Hname j q Hj) as (q0 & Hq0 & Hn1).
    apply (Hu i j p0 q0); [done|done|congruence].
  - intros i p Hi. rewrite Hmap.
    destruct (Hname i p Hi) as (p0 & Hp0 & <-). by apply Hr.
  - intros tag uid. rewrite Hmap. intros Htag.
    apply registered_after_updates. by apply (Ht tag).
  - intros i row uid. rewrite Hpend. intros Hrow Huid.
    apply registered_after_updates. by apply (Hp i row).
Qed.

Lemma consistent_after_confirmation (s : Bot) (match_id user_id chat_id : Z) :
  consistent (db s) →
  consistent (db (state_after (process_match_confirmation match_id user_id chat_id) s)).
Proof.
  intros Hs. unfold state_after.
  destruct (run _ s) as [[r s'] t] eqn:Hrun. cbn.
  destruct (confirmation_cases _ _ _ _ _ _ _ Hrun)
    as [(-> & _)|(row & aw & al & d & _ & _ & _ & _ & -> & _)]; [done|].
  cbn [db with_db]. by apply consistent_after_updates.
Qed.

Lemma resolved_ids_are_tags {A : Type} (f : A → option Z) (l : list A) (ids : list Z)
    (uid : Z) :
  mapM f l = Some ids → uid ∈ ids → ∃ x, x ∈ l ∧ f x = Some uid.
Proof.
  rewrite mapM_Some. intros Hall Hin.
  induction Hall as [|x y l k Hxy Hall IH]; [by apply elem_of_nil in Hin|].
  apply elem_of_cons in Hin as [->|Hin].
  - exists x. split; [left|done].
  - destruct (IH Hin) as (x' & Hx' & Hf). exists x'. split; [by right|done].
Qed.

Lemma consistent_after_new_result (s : Bot) (message : message) :
  consistent (db s) →
  consistent (db (state_after (handle_new_result_command message) s)).
Proof.
  intros Hs. unfold state_after.
  destruct (run _ s) as [[r s'] t] eqn:Hrun. cbn.
  apply new_result_run in Hrun
    as [(_ & Hdb & _)|(mt & W & L & _ & Hdb & _ & Hres & _)].
  { by rewrite Hdb. }
  destruct Hs as (Hu & Hr & Ht & Hp). cbn in Hdb. rewrite Hdb.
  split; [done|]. split; [done|]. split; [done|].
  intros i row uid. cbn.
  destruct (decide (i = next_rowid (pending_matches (db s)))) as [->|Hne].
  - rewrite lookup_insert_eq. intros [= <-]. cbn. intros Huid.
    destruct (resolved_ids_are_tags _ _ _ _ Hres Huid) as (tag & _ & Htag).
    by apply (Ht tag).
  - rewrite lookup_insert_ne by done. apply Hp.
Qed.

Lemma consistent_after_expiry (s : Bot) (match_id chat_id original_message_id : Z) :
  consistent (db s) →
  consistent
    (db (state_after (delete_pending_match_job match_id chat_id original_message_id) s)).
Proof.
  intros (Hu & Hr & Ht & Hp). unfold state_after. rewrite expiry_run.
  destruct (pending_matches (db s) !! match_id) as [row|] eqn:Hrow; cbn; [|done].
  split; [done|]. split; [done|]. split; [done|].
  intros i row' uid. unfold delete_pending_match. cbn.
  intros Hrow'%lookup_delete_Some. apply (Hp i row' uid). tauto.
Qed.

Lemma handled_consistent (s s' : Bot) :
  handled s s' → consistent (db s) → consistent (db s').
Proof.
  intros [s0 m|s0 i u c|s0 before j after Hjobs|s0 u n f|s0 c _|s0 i] Hs.
  - by apply consistent_after_new_result.
  - by apply consistent_after_confirmation.
  - by apply consistent_after_expiry.
  - by rewrite update_player_info_keeps_the_state.
  - done.
  - by apply (consistent_same_tables (db s0)).
Qed.

Lemma follows_consistent (s s' : Bot) :
  follows s s' → consistent (db s) → consistent (db s').
Proof.
  induction 1 as [|s1 s2 s3 Hstep _ IH]; [done|].
  intros Hs. by apply IH, (handled_consistent s1).
Qed.

Lemma handled_jobs (s s' : Bot) : handled s s' → jobs s' `sublist_of` jobs s.
Proof.
  intros [s0 m|s0 i u c|s0 before j after Hjobs|s0 u n f|s0 c _|s0 i].
  - unfold state_after. destruct (run _ s0) as [[r s1] t] eqn:Hrun. cbn.
    by apply new_result_run in Hrun as [(_ & _ & ->)|(? & ? & ? & _ & _ & -> & _)].
  - unfold state_after. destruct (run _ s0) as [[r s1] t] eqn:Hrun. cbn.
    by destruct (confirmation_frame _ _ _ _ _ _ _ Hrun) as (_ & _ & _ & -> & _).
  - unfold state_after. rewrite expiry_run. cbn [db without_job].
    rewrite Hjobs.
    assert (Hsub : before ++ after `sublist_of` before ++ j :: after).
    { apply sublist_app; [done|]. by apply sublist_cons_r; left. }
    by destruct (pending_matches (db s0) !! job_match_id j).
  - by rewrite update_player_info_keeps_the_state.
  - done.
  - done.
Qed.

End Consistent.

(** The seeded example is consistent. *)
Lemma four_players_consistent : consistent (db four_players).
Proof.
  assert (Hplayers : ∀ i p, players (db four_players) !! i = Some p →
            (i = 1 ∧ p = new_player "ann" "Ann") ∨ (i = 2 ∧ p = new_player "bob" "Bob")
            ∨ (i = 3 ∧ p = new_player "cyd" "Cyd") ∨ (i = 4 ∧ p = new_player "dan" "Dan")).
  { intros i p. unfold four_players. cbn [db players].
    rewrite !lookup_insert_Some, lookup_empty.
    intros [[<- <-]|[_ [[<- <-]|[_ [[<- <-]|[_ [[<- <-]|[_ ?]]]]]]]]; [tauto..|done]. }
  assert (Htags : ∀ tag uid, user_mapping (db four_players) !! tag = Some uid →
            (tag = "ann"%string ∧ uid = 1) ∨ (tag = "bob"%string ∧ uid = 2)
            ∨ (tag = "cyd"%string ∧ uid = 3) ∨ (tag = "dan"%string ∧ uid = 4)).
  { intros tag uid. unfold four_players. cbn [db user_mapping].
    rewrite !lookup_insert_Some, lookup_empty.
    intros [[<- <-]|[_ [[<- <-]|[_ [[<- <-]|[_ [[<- <-]|[_ ?]]]]]]]]; [tauto..|done]. }
  split; [|split; [|split]].
  - intros i j p q Hi%Hplayers Hj%Hplayers.
    destruct Hi as [[-> ->]|[[-> ->]|[[-> ->]|[-> ->]]]],
             Hj as [[-> ->]|[[-> ->]|[[-> ->]|[-> ->]]]]; cbn; done.
  - intros i p Hi%Hplayers.
    destruct Hi as [[-> ->]|[[-> ->]|[[-> ->]|[-> ->]]]]; vm_compute; reflexivity.
  - intros tag uid Htag%Htags.
    destruct Htag as [[-> ->]|[[-> ->]|[[-> ->]|[-> ->]]]];
      apply (bool_decide_unpack _); vm_compute; exact I.
  - intros i row uid Hrow. vm_compute in Hrow. discriminate.
Qed.

Lemma one_pending_follows : follows (H := whole_powers_of_ten) four_players one_pending.
Proof. apply rtc_once. unfold one_pending. constructor. Qed.

Lemma doubles_pending_follows :
  follows (H := whole_powers_of_ten) four_players doubles_pending.
Proof. apply rtc_once. unfold doubles_pending. constructor. Qed.

(** ** The tables under every handler *)

(** X9: the handlers keep the usernames of the players apart: when no
    two players carry the same username, and the tables are consistent
    otherwise, the same holds in every state the handlers lead to from
    there. *)
Theorem usernames_stay_unique `{Libm} (s0 s : Bot) :
  follows s0 s → consistent (db s0) → unique_usernames (db s).
Proof. intros Hs H0. by destruct (follows_consistent s0 s Hs H0) as (? & _). Qed.

Lemma usernames_stay_unique_witness :
  follows (H := whole_powers_of_ten) four_players one_pending ∧
  consistent (db four_players) ∧
  unique_usernames (db one_pending).
Proof.
  split; [exact one_pending_follows|]. split; [exact four_players_consistent|].
  exact (usernames_stay_unique (H := whole_powers_of_ten) four_players one_pending
           one_pending_follows four_players_consistent).
Defined.

(** X10: in every state the handlers lead to from a consistent one, the
    username a player has now is a tag that leads to that player, so
    that a report can name a registered player by the current
    username. *)
Theorem current_username_leads_to_its_player `{Libm} (s0 s : Bot) :
  follows s0 s → consistent (db s0) → usernames_resolve (db s).
Proof. intros Hs H0. by destruct (follows_consistent s0 s Hs H0) as (_ & ? & _). Qed.

Lemma current_username_leads_to_its_player_witness :
  follows (H := whole_powers_of_ten) four_players one_pending ∧
  consistent (db four_players) ∧
  get_user_id_by_tag (db one_pending) "cyd" = Some 3.
Proof.
  split; [exact one_pending_follows|]. split; [exact four_players_consistent|].
  refine (current_username_leads_to_its_player (H := whole_powers_of_ten)
            four_players one_pending one_pending_follows four_players_consistent
            3 (new_player "cyd" "Cyd") _).
  vm_compute. reflexivity.
Defined.

(** X11: in every state the handlers lead to from a consistent one, a
    tag leads to a player who has a row, and so does every winner and
    loser of every pending result: a confirmation never reads the
    default rating for a participant and never updates a row that is
    not there. *)
Theorem participants_are_registered `{Libm} (s0 s : Bot) :
  follows s0 s → consistent (db s0) →
  tags_registered (db s) ∧ participants_registered (db s).
Proof. intros Hs H0. by destruct (follows_consistent s0 s Hs H0) as (_ & _ & ? & ?). Qed.

Lemma participants_are_registered_witness :
  follows (H := whole_powers_of_ten) four_players doubles_pending ∧
  consistent (db four_players) ∧
  is_Some (players (db doubles_pending) !! 4).
Proof.
  split; [exact doubles_pending_follows|]. split; [exact four_players_consistent|].
  refine (proj2 (participants_are_registered (H := whole_powers_of_ten)
                   four_players doubles_pending doubles_pending_follows
                   four_players_consistent)
            1 (PendingMatch "2vs2" [1; 2; 3; 4] [1; 2] [3; 4] "11-9") 4 _ _).
  - vm_compute. reflexivity.
  - cbn. rewrite !elem_of_cons. by right; right; right; left.
Defined.

(** X12: no handler arms a timer. [scheduler.add_job] raises before
    the job is stored, so the job store only ever loses jobs, and a
    report that is accepted leaves its pending result without one. *)
Theorem no_timer_is_ever_armed `{Libm} (s0 s : Bot) :
  follows s0 s → jobs s `sublist_of` jobs s0.
Proof.
  induction 1 as [|s1 s2 s3 Hstep _ IH]; [done|].
  etrans; [exact IH|]. by apply handled_jobs.
Qed.

Lemma no_timer_is_ever_armed_witness :
  follows (H := whole_powers_of_ten) four_players one_pending ∧
  is_pending 1 one_pending ∧
  jobs one_pending = [].
Proof.
  assert (Hp : is_pending 1 one_pending).
  { apply (bool_decide_unpack _). vm_compute. exact I. }
  split; [exact one_pending_follows|]. split; [exact Hp|].
  apply sublist_nil_r.
  exact (no_timer_is_ever_armed (H := whole_powers_of_ten) four_players one_pending
           one_pending_follows).
Defined.

(** ** Settlement *)

Lemma games_of_adjust (delta_rating : Z) (p : player) :
  games (adjust delta_rating p) = games p + 1.
Proof. unfold games, adjust. cbn. destruct (bool_decide _); lia. Qed.

(** X13: a confirmation never moves a result to the history. Whatever
    it comes to, the pending rows, the history, the tags and the job
    store are as before and it does not return [Finalized]; and one
    that has made its rating updates ends in the exception of
    [finalize_match], having sent nothing: no answer to the button
    and no message with the new ratings. *)
Theorem confirmation_never_reaches_the_history `{Libm}
    (s s' : Bot) (match_id user_id chat_id : Z) (r : result settlement) (t : list made) :
  run (process_match_confirmation match_id user_id chat_id) s = (r, s', t) →
  pending_matches (db s') = pending_matches (db s) ∧
  matches (db s') = matches (db s) ∧
  user_mapping (db s') = user_mapping (db s) ∧
  jobs s' = jobs s ∧
  (∀ delta_r, r ≠ Ok (Finalized delta_r)) ∧
  (rating_updates t ≠ [] → r = Raise OperationalError ∧ telegram_calls t = []).
Proof.
  intros Hrun.
  destruct (confirmation_frame _ _ _ _ _ _ _ Hrun) as (Hpend & Hmatches & Hmap & Hjobs & _).
  split; [done|]. split; [done|]. split; [done|]. split; [done|].
  destruct (confirmation_cases _ _ _ _ _ _ _ Hrun)
    as [(_ & Hnone & Hnot)|(row & aw & al & delta_r & _ & _ & _ & -> & _ & ->)].
  - split; [done|]. by intros Hsome.
  - split; [by intros d|]. intros _. split; [done|].
    by destruct (record_of_confirmation match_id row aw al delta_r) as (_ & _ & ?).
Qed.

Lemma confirmation_never_reaches_the_history_witness :
  rating_updates
    (run (H := whole_powers_of_ten) (process_match_confirmation 1 2 77) one_pending).2
    = [(1, 8); (2, -8)] ∧
  (run (H := whole_powers_of_ten) (process_match_confirmation 1 2 77) one_pending).1.1
    = Raise OperationalError ∧
  telegram_calls
    (run (H := whole_powers_of_ten) (process_match_confirmation 1 2 77) one_pending).2
    = [] ∧
  pending_matches
    (db (run (H := whole_powers_of_ten) (process_match_confirmation 1 2 77)
           one_pending).1.2)
  = pending_matches (db one_pending) ∧
  matches
    (db (run (H := whole_powers_of_ten) (process_match_confirmation 1 2 77)
           one_pending).1.2)
  = matches (db one_pending).
Proof.
  assert (Hupd : rating_updates
            (run (H := whole_powers_of_ten) (process_match_confirmation 1 2 77)
               one_pending).2 = [(1, 8); (2, -8)]) by (vm_compute; reflexivity).
  destruct (confirmation_never_reaches_the_history (H := whole_powers_of_ten)
              one_pending _ 1 2 77 _ _ (run_eta _ _))
    as (Hpend & Hmatches & _ & _ & _ & Hraise).
  destruct Hraise as [Hr Hsilent]; [by rewrite Hupd|].
  split; [exact Hupd|]. split; [exact Hr|]. split; [exact Hsilent|].
  split; [exact Hpend|exact Hmatches].
Defined.

(** X14: a confirmation that makes its updates, for a pending row that
    names nobody twice, changes the row of every winner by [+delta_r]
    and of every loser by [-delta_r], each exactly once, and no other
    row; every participant keeps the username and has one more game on
    record. *)
Theorem settlement_counts_one_game_each `{Libm}
    (s s' : Bot) (match_id user_id chat_id : Z) (row : pending_match)
    (r : result settlement) (t : list made) :
  pending_matches (db s) !! match_id = Some row →
  NoDup (pm_winner_ids row ++ pm_loser_ids row) →
  run (process_match_confirmation match_id user_id chat_id) s = (r, s', t) →
  rating_updates t ≠ [] →
  ∃ delta_r,
    rating_updates t = settlement_updates (pm_winner_ids row) (pm_loser_ids row) delta_r ∧
    (∀ uid p, uid ∈ pm_winner_ids row → players (db s) !! uid = Some p →
       players (db s') !! uid = Some (adjust delta_r p) ∧
       p_username (adjust delta_r p) = p_username p ∧
       games (adjust delta_r p) = games p + 1) ∧
    (∀ uid p, uid ∈ pm_loser_ids row → players (db s) !! uid = Some p →
       players (db s') !! uid = Some (adjust (- delta_r) p) ∧
       p_username (adjust (- delta_r) p) = p_username p ∧
       games (adjust (- delta_r) p) = games p + 1) ∧
    (∀ uid, uid ∉ pm_winner_ids row ++ pm_loser_ids row →
       players (db s') !! uid = players (db s) !! uid).
Proof.
  intros Hrow Hunique Hrun Hsome.
  destruct (confirmation_with_updates _ _ _ _ _ _ _ Hrun Hsome)
    as (row' & aw & al & delta_r & Hrow' & _ & _ & _ & -> & ->).
  rewrite Hrow in Hrow'. injection Hrow' as <-.
  destruct (record_of_confirmation match_id row aw al delta_r) as (Hupd & _).
  cbn zeta in Hupd.
  exists delta_r. split; [exact Hupd|].
  cbn [db with_db]. rewrite players_of_updated.
  assert (Hids : NoDup (settlement_updates (pm_winner_ids row) (pm_loser_ids row)
                          delta_r).*1) by (by rewrite settlement_updates_ids).
  split; [|split].
  - intros uid p Huid Hp. split; [|split; [done|apply games_of_adjust]].
    rewrite (players_of_apply_updates_once _ _ uid delta_r Hids), Hp; [done|].
    apply elem_of_app. left. apply list_elem_of_fmap. by exists uid.
  - intros uid p Huid Hp. split; [|split; [done|apply games_of_adjust]].
    rewrite (players_of_apply_updates_once _ _ uid (- delta_r) Hids), Hp; [done|].
    apply elem_of_app. right. apply list_elem_of_fmap. by exists uid.
  - intros uid Huid. apply players_of_apply_updates_other.
    by rewrite settlement_updates_ids.
Qed.

Lemma settlement_counts_one_game_each_witness :
  pending_matches (db doubles_pending) !! 1
    = Some (PendingMatch "2vs2" [1; 2; 3; 4] [1; 2] [3; 4] "11-9") ∧
  NoDup ([1; 2] ++ [3; 4] : list Z) ∧
  rating_updates
    (run (H := whole_powers_of_ten) (process_match_confirmation 1 3 77)
       doubles_pending).2 ≠ [] ∧
  ∃ delta_r,
    rating_updates
      (run (H := whole_powers_of_ten) (process_match_confirmation 1 3 77)
         doubles_pending).2 = settlement_updates [1; 2] [3; 4] delta_r ∧
    ∀ uid, uid ∉ [1; 2] ++ [3; 4] →
      players
        (db (run (H := whole_powers_of_ten) (process_match_confirmation 1 3 77)
               doubles_pending).1.2) !! uid
      = players (db doubles_pending) !! uid.
Proof.
  assert (Hrow : pending_matches (db doubles_pending) !! 1
                 = Some (PendingMatch "2vs2" [1; 2; 3; 4] [1; 2] [3; 4] "11-9")).
  { vm_compute. reflexivity. }
  assert (Hunique : NoDup ([1; 2] ++ [3; 4] : list Z)).
  { apply (bool_decide_unpack _). vm_compute. exact I. }
  assert (Hsome : rating_updates
            (run (H := whole_powers_of_ten) (process_match_confirmation 1 3 77)
               doubles_pending).2 ≠ []).
  { vm_compute. discriminate. }
  split; [exact Hrow|]. split; [exact Hunique|]. split; [exact Hsome|].
  destruct (settlement_counts_one_game_each (H := whole_powers_of_ten)
              doubles_pending _ 1 3 77 _ _ _ Hrow Hunique (run_eta _ _) Hsome)
    as (delta_r & Hupd & _ & _ & Hother).
  exists delta_r. split; [exact Hupd|exact Hother].
Defined.

(** X15: a confirmation does not spend the result. After one that has
    made its updates the pending row is still there, and another press
    of the button by a participant goes the same way: it makes the
    updates again, on the ratings the first one left, and ends in the
    same exception. *)
Theorem confirmed_result_can_be_confirmed_again `{Libm}
    (s s' : Bot) (match_id user_id chat_id : Z) (r : result settlement) (t : list made) :
  run (process_match_confirmation match_id user_id chat_id) s = (r, s', t) →
  rating_updates t ≠ [] →
  ∃ row,
    pending_matches (db s') !! match_id = Some row ∧
    ∀ (user_id' chat_id' aw al delta_r : Z),
      user_id' ∈ pm_winner_ids row ++ pm_loser_ids row →
      settle (db s') (pm_winner_ids row) (pm_loser_ids row) = Ok (aw, al, delta_r) →
      run (process_match_confirmation match_id user_id' chat_id') s'
      = (Raise OperationalError, with_db s' (updated (db s') row delta_r),
         confirmation_steps match_id row aw al delta_r).
Proof.
  intros Hrun Hsome.
  destruct (confirmation_frame _ _ _ _ _ _ _ Hrun) as (Hpend & _).
  destruct (confirmation_with_updates _ _ _ _ _ _ _ Hrun Hsome)
    as (row & _ & _ & _ & Hrow & _).
  exists row. rewrite Hpend. split; [exact Hrow|].
  intros user_id' chat_id' aw al delta_r Hin Hsettle.
  apply confirmation_goes_as_far_as_finalize; [by rewrite Hpend|done|done].
Qed.

Lemma confirmed_result_can_be_confirmed_again_witness :
  rating_updates
    (run (H := whole_powers_of_ten) (process_match_confirmation 1 1 77) mismatch).2
    ≠ [] ∧
  (run (H := whole_powers_of_ten) (process_match_confirmation 1 2 77)
     (run (H := whole_powers_of_ten) (process_match_confirmation 1 1 77)
        mismatch).1.2).1.1 = Raise OperationalError ∧
  players
    (db (run (H := whole_powers_of_ten) (process_match_confirmation 1 2 77)
           (run (H := whole_powers_of_ten) (process_match_confirmation 1 1 77)
              mismatch).1.2).1.2) !! 1
  = Some {| p_username := "ann"; p_rating := 3000; p_wins := 0; p_losses := 2;
            p_full_name := "Ann" |}.
Proof.
  assert (Hsome : rating_updates
            (run (H := whole_powers_of_ten) (process_match_confirmation 1 1 77)
               mismatch).2 ≠ []).
  { vm_compute. discriminate. }
  split; [exact Hsome|].
  destruct (confirmed_result_can_be_confirmed_again (H := whole_powers_of_ten)
              mismatch _ 1 1 77 _ _ (run_eta _ _) Hsome) as (row & Hrow & Hagain).
  assert (Hrow' : row = PendingMatch "1vs1" [1; 2] [1] [2] "11-9").
  { vm_compute in Hrow. by injection Hrow. }
  subst row.
  rewrite (Hagain 2 77 3000 1000 0).
  - split; [reflexivity|]. vm_compute. reflexivity.
  - cbn. rewrite !elem_of_cons. by right; left.
  - vm_compute. reflexivity.
Defined.

(** X16: after the expiry job of an id has run, a press of the confirm
    button of that id is answered as already processed and changes
    nothing: a result that expired can no longer move any rating. *)
Theorem expired_result_cannot_be_confirmed `{Libm}
    (s : Bot) (match_id chat_id original_message_id user_id chat_id' : Z) :
  let s' := state_after
              (delete_pending_match_job match_id chat_id original_message_id) s in
  players (db s') = players (db s) ∧
  matches (db s') = matches (db s) ∧
  run (process_match_confirmation match_id user_id chat_id') s'
  = (Ok AlreadySettled, s',
     [Made (DbGetPendingMatch match_id);
      Made (Telegram (CallbackAnswer TxtAlreadyProcessed));
      Made (Telegram DeleteReplyMarkup)]).
Proof.
  unfold state_after. rewrite expiry_run.
  destruct (pending_matches (db s) !! match_id) as [row|] eqn:Hrow; cbn [fst snd].
  - split; [done|]. split; [done|]. apply confirmation_already_settled.
    cbn. apply lookup_delete_eq.
  - split; [done|]. split; [done|]. by apply confirmation_already_settled.
Qed.

(** X17: a confirmation that ends in any other exception than that of
    [finalize_match] has written nothing: every read and the whole
    computation of the delta come before the first update, so that no
    rating is changed. *)
Theorem failed_confirmation_writes_nothing `{Libm}
    (s s' : Bot) (match_id user_id chat_id : Z) (e : exn) (t : list made) :
  run (process_match_confirmation match_id user_id chat_id) s = (Raise e, s', t) →
  e ≠ OperationalError →
  s' = s ∧ rating_updates t = [].
Proof.
  intros Hrun He.
  destruct (confirmation_cases _ _ _ _ _ _ _ Hrun)
    as [(-> & Hnone & _)|(? & ? & ? & ? & _ & _ & _ & [= ->] & _)]; done.
Qed.

Lemma failed_confirmation_writes_nothing_witness :
  (run (H := whole_powers_of_ten) (process_match_confirmation 1 2 77) unrated).1.1
    = Raise OverflowError ∧
  OverflowError ≠ OperationalError ∧
  (run (H := whole_powers_of_ten) (process_match_confirmation 1 2 77) unrated).1.2
    = unrated.
Proof.
  assert (Hr : (run (H := whole_powers_of_ten) (process_match_confirmation 1 2 77)
                  unrated).1.1 = Raise OverflowError) by (vm_compute; reflexivity).
  assert (He : OverflowError ≠ OperationalError) by discriminate.
  split; [exact Hr|]. split; [exact He|].
  exact (proj1 (failed_confirmation_writes_nothing (H := whole_powers_of_ten)
                  unrated _ 1 2 77 OverflowError _
                  (eq_trans (run_eta _ _) (f_equal (λ r, (r, _, _)) Hr)) He)).
Defined.

(** ** Reports, from the command to the stored row *)

Section Reports.
Context `{Libm}.

Lemma run_resolve_tags_found (tags : list string) (user_ids : gmap string Z) (s : Bot) :
  (∀ tag, tag ∈ tags → is_Some (get_user_id_by_tag (db s) tag)) →
  ∃ m t, run (resolve_tags tags user_ids) s = (Ok (Some m), s, t) ∧
         telegram_calls t = [].
Proof.
  revert user_ids. induction tags as [|x tags IH]; intros user_ids Hall.
  { by exists user_ids, []. }
  cbn [resolve_tags]. rewrite run_bind, run_do. cbn [exec fst snd].
  destruct (Hall x) as [uid Hx]; [left|]. rewrite Hx.
  destruct (IH (<[x:=uid]> user_ids)) as (m & t & -> & Ht).
  { intros tag Htag. apply Hall. by right. }
  exists m. eexists. split; [reflexivity|exact Ht].
Qed.

Lemma run_resolve_tags_missing (tags : list string) (user_ids : gmap string Z) (s : Bot)
    (tag : string) :
  tag ∈ tags → get_user_id_by_tag (db s) tag = None →
  ∃ t, run (resolve_tags tags user_ids) s = (Ok None, s, t) ∧ telegram_calls t = [].
Proof.
  revert user_ids. induction tags as [|x tags IH]; intros user_ids Hin Hnone.
  { by apply elem_of_nil in Hin. }
  cbn [resolve_tags]. rewrite run_bind, run_do. cbn [exec fst snd].
  destruct (get_user_id_by_tag (db s) x) as [uid|] eqn:Hx.
  - apply elem_of_cons in Hin as [->|Hin]; [congruence|].
    destruct (IH (<[x:=uid]> user_ids) Hin Hnone) as (t & -> & Ht).
    eexists. split; [reflexivity|exact Ht].
  - eexists. split; [reflexivity|done].
Qed.

Lemma remove_dups_of_NoDup {A : Type} `{EqDecision A} (l : list A) :
  NoDup l → remove_dups l = l.
Proof.
  induction 1 as [|x l Hx _ IH]; [done|]. cbn.
  destruct (decide_rel elem_of x l); [done|]. by rewrite IH.
Qed.

Lemma length_removelast {A : Type} (l : list A) :
  length (removelast l) = (length l - 1)%nat.
Proof.
  induction l as [|a l IH]; [done|].
  destruct l as [|b l]; [done|].
  change (removelast (a :: b :: l)) with (a :: removelast (b :: l)).
  cbn [length] in *. rewrite IH. lia.
Qed.

Lemma length_tags_of (message : message) :
  length (tags_of message) = (length (parts message) - 2)%nat.
Proof.
  unfold tags_of. rewrite length_fmap, length_removelast.
  destruct (parts message); cbn; lia.
Qed.

(** The handler from the lookups of the tags on, for the teams [wt] and
    [lt]. *)
Lemma report_tail (s : Bot) (message : message) (match_type score : string)
    (tags wt lt : list string) :
  tags = wt ++ lt →
  ∃ r s' t,
    run (resolve_tags (remove_dups tags) ∅ ≫= λ resolved,
           match resolved with
           | Some user_ids =>
               winner_ids ← ids_of_tags user_ids wt;
               loser_ids ← ids_of_tags user_ids lt;
               if bool_decide (length (remove_dups (winner_ids ++ loser_ids))
                               ≠ length (winner_ids ++ loser_ids))
               then reject message TxtNotUnique
               else
                 pending_id ← do (DbAddPendingMatch match_type (winner_ids ++ loser_ids)
                                    winner_ids loser_ids score);
                 do_try (AddJob Number
                           (Job pending_id (chat_id message) (message_id message)));;
                 do (Telegram (Reply (message_id message)
                       (TxtAwaiting match_type winner_ids loser_ids score)
                       (Some pending_id)));;
                 Ret (Submitted pending_id)
           | None => reject message TxtUserNotFound
           end) s = (r, s', t) ∧
    TARGET_CHAT_ID s' = TARGET_CHAT_ID s ∧
    match mapM (get_user_id_by_tag (db s)) tags with
    | None =>
        r = Ok (Rejected TxtUserNotFound) ∧ db s' = db s ∧ jobs s' = jobs s ∧
        telegram_calls t = [Reply (message_id message) TxtUserNotFound None]
    | Some ids =>
        let k := length wt in
        if decide (NoDup ids) then
          r = Raise TypeError ∧
          db s' = (add_pending_match (db s) match_type ids (take k ids) (drop k ids)
                     score).2 ∧
          jobs s' = jobs s ∧
          telegram_calls t = []
        else
          r = Ok (Rejected TxtNotUnique) ∧ db s' = db s ∧ jobs s' = jobs s ∧
          telegram_calls t = [Reply (message_id message) TxtNotUnique None]
    end.
Proof.
  intros Htags. rewrite run_bind.
  destruct (mapM (get_user_id_by_tag (db s)) tags) as [ids|] eqn:Hids.
  2:{ apply mapM_None_1, Exists_exists in Hids as (tag & Htag & Hnone).
      destruct (run_resolve_tags_missing (remove_dups tags) ∅ s tag)
        as (tr & -> & Htr); [by apply elem_of_remove_dups|done|].
      rewrite run_reject. do 3 eexists. split; [reflexivity|].
      split; [done|]. split; [done|]. split; [done|]. split; [done|].
      unfold telegram_calls in *. rewrite omap_app, Htr. reflexivity. }
  assert (Hfound : ∀ tag, tag ∈ remove_dups tags →
            is_Some (get_user_id_by_tag (db s) tag)).
  { intros tag Htag. rewrite elem_of_remove_dups in Htag.
    assert (Hsome : is_Some (mapM (get_user_id_by_tag (db s)) tags)) by eauto.
    apply mapM_is_Some_1 in Hsome. rewrite Forall_forall in Hsome.
    by apply Hsome. }
  destruct (run_resolve_tags_found (remove_dups tags) ∅ s Hfound) as (m & tr & Hrun & Htr).
  destruct (run_resolve_tags (remove_dups tags) ∅ s) as (res & tr' & Hrun' & Hres).
  rewrite Hrun in Hrun'. injection Hrun' as <- <-.
  rewrite Hrun. destruct (Hres m eq_refl) as [Hin _].
  assert (Hall : ∀ tag, tag ∈ tags →
            m !! tag = get_user_id_by_tag (db s) tag ∧ is_Some (m !! tag)).
  { intros tag Htag. apply Hin. by apply elem_of_remove_dups. }
  rewrite run_bind.
  destruct (run_ids_of_tags m (db s) wt s) as (W & -> & HW).
  { intros tag Htag. apply Hall. rewrite Htags. apply elem_of_app. by left. }
  rewrite run_bind.
  destruct (run_ids_of_tags m (db s) lt s) as (L & -> & HL).
  { intros tag Htag. apply Hall. rewrite Htags. apply elem_of_app. by right. }
  assert (Hsplit : ids = W ++ L).
  { pose proof (mapM_option_app _ _ _ _ _ HW HL) as Happ.
    rewrite <- Htags, Hids in Happ. by injection Happ. }
  assert (HlenW : length wt = length W) by (by apply length_mapM in HW).
  assert (Htake : take (length wt) ids = W).
  { rewrite Hsplit, HlenW. by rewrite take_app_length. }
  assert (Hdrop : drop (length wt) ids = L).
  { rewrite Hsplit, HlenW. by rewrite drop_app_length. }
  cbn zeta. rewrite Htake, Hdrop, <- Hsplit.
  destruct (decide (NoDup ids)) as [Hnodup|Hdup].
  - rewrite bool_decide_false by (rewrite remove_dups_of_NoDup by done; auto).
    rewrite run_bind, run_do. cbn [exec fst snd add_pending_match].
    rewrite run_bind, run_do_try. cbn [exec fst snd date_trigger].
    do 3 eexists. split; [reflexivity|].
    split; [done|]. split; [done|]. split; [done|]. split; [done|].
    unfold telegram_calls in *. rewrite omap_app, Htr. reflexivity.
  - rewrite bool_decide_true.
    2:{ intros Hlen. by apply Hdup, remove_dups_same_length. }
    rewrite run_reject. do 3 eexists. split; [reflexivity|].
    split; [done|]. split; [done|]. split; [done|]. split; [done|].
    unfold telegram_calls in *. rewrite omap_app, Htr. reflexivity.
Qed.

(** A command sent in a group with the right number of tags: the ids
    the tags lead to decide what becomes of it. *)
Lemma report_with_right_count (s : Bot) (message : message) :
  chat_type message ∈ ["group"; "supergroup"]%string →
  length (tags_of message) = (2 * team_size_of (hd ""%string (parts message)))%nat →
  ∃ r s' t,
    run (handle_new_result_command message) s = (r, s', t) ∧
    match mapM (get_user_id_by_tag (db s)) (tags_of message) with
    | None =>
        r = Ok (Rejected TxtUserNotFound) ∧ db s' = db s ∧ jobs s' = jobs s ∧
        telegram_calls t = [Reply (message_id message) TxtUserNotFound None]
    | Some ids =>
        let command := hd ""%string (parts message) in
        let score := List.last (parts message) ""%string in
        let k := team_size_of command in
        if decide (NoDup ids) then
          r = Raise TypeError ∧
          db s' = (add_pending_match (db s) (match_type_of command) ids
                     (take k ids) (drop k ids) score).2 ∧
          jobs s' = jobs s ∧
          telegram_calls t = []
        else
          r = Ok (Rejected TxtNotUnique) ∧ db s' = db s ∧ jobs s' = jobs s ∧
          telegram_calls t = [Reply (message_id message) TxtNotUnique None]
    end.
Proof.
  intros Hgroup Hcount. unfold handle_new_result_command.
  rewrite bool_decide_true by done. cbn [negb].
  rewrite run_bind, run_do. cbn [exec fst snd]. rewrite run_bind.
  assert (Htarget : ∃ s1 t1,
    run (if decide (TARGET_CHAT_ID s = 0) then do (SetTargetChat (chat_id message))
         else Ret tt) s = (Ok tt, s1, t1) ∧ db s1 = db s ∧ jobs s1 = jobs s ∧
    telegram_calls t1 = []).
  { destruct (decide (TARGET_CHAT_ID s = 0)); [rewrite run_do|]; cbn; eauto 10. }
  destruct Htarget as (s1 & t1 & -> & Hdb & Hjobs & Ht1).
  pose proof (length_tags_of message) as Hlen.
  unfold team_size_of, match_type_of in *.
  rewrite decide_False by (destruct (endswith _ _); lia).
  fold (tags_of message).
  set (tags := tags_of message) in *.
  set (score := List.last (parts message) ""%string).
  destruct (endswith (hd ""%string (parts message)) "1vs1").
  - rewrite (bool_decide_false (_ ∧ length tags ≠ 2%nat)) by (intros [_ ?]; lia).
    rewrite bool_decide_false by (intros [? _]; discriminate).
    rewrite !bool_decide_true by done.
    destruct (singles_teams tags Hcount) as (Htags & _ & _).
    destruct (report_tail s1 message "1vs1" score tags _ _ Htags)
      as (r & s' & t & -> & _ & Hout).
    do 3 eexists. split; [reflexivity|].
    rewrite Hdb, Hjobs in Hout.
    replace (length (take 1 tags)) with 1%nat in Hout
      by (destruct tags; [discriminate|done]).
    destruct (mapM _ tags) as [ids|]; [destruct (decide (NoDup ids))|];
      destruct Hout as (-> & -> & -> & Ht); repeat split; try done;
      unfold telegram_calls in *; cbn [omap list_omap]; rewrite !omap_app, Ht1, Ht;
      reflexivity.
  - rewrite bool_decide_false by (intros [? _]; discriminate).
    rewrite (bool_decide_false (_ ∧ length tags ≠ 4%nat)) by (intros [_ ?]; lia).
    rewrite !bool_decide_false by discriminate.
    destruct (doubles_teams tags Hcount) as (Htags & _ & _).
    destruct (report_tail s1 message "2vs2" score tags _ _ Htags)
      as (r & s' & t & -> & _ & Hout).
    do 3 eexists. split; [reflexivity|].
    rewrite Hdb, Hjobs in Hout.
    replace (length (take 2 tags)) with 2%nat in Hout
      by (destruct tags as [|? [|? ?]]; try discriminate; done).
    destruct (mapM _ tags) as [ids|]; [destruct (decide (NoDup ids))|];
      destruct Hout as (-> & -> & -> & Ht); repeat split; try done;
      unfold telegram_calls in *; cbn [omap list_omap]; rewrite !omap_app, Ht1, Ht;
      reflexivity.
Qed.

End Reports.

(** X18: a report sent in a group, with as many tags as the command word
    asks for, all of them leading to players and no player twice, is
    stored under the next pending id with the first half of the ids as
    winners and the second half as losers, the other rows and tables
    stay as they are; then [scheduler.add_job] raises: the handler ends
    in that exception, no expiry job is added and no message is sent,
    so that nobody is shown the confirm button. A command word that
    does not end in [1vs1] counts as doubles. *)
Theorem resolved_report_is_stored_and_raises `{Libm}
    (s : Bot) (message : message) (ids : list Z) :
  chat_type message ∈ ["group"; "supergroup"]%string →
  length (tags_of message) = (2 * team_size_of (hd ""%string (parts message)))%nat →
  mapM (get_user_id_by_tag (db s)) (tags_of message) = Some ids →
  NoDup ids →
  let command := hd ""%string (parts message) in
  let score := List.last (parts message) ""%string in
  let k := team_size_of command in
  let match_id := next_rowid (pending_matches (db s)) in
  ∃ s' t,
    run (handle_new_result_command message) s = (Raise TypeError, s', t) ∧
    get_pending_match (db s) match_id = None ∧
    get_pending_match (db s') match_id
    = Some (match_type_of command, take k ids, drop k ids, score) ∧
    (∀ i, i ≠ match_id → get_pending_match (db s') i = get_pending_match (db s) i) ∧
    players (db s') = players (db s) ∧
    user_mapping (db s') = user_mapping (db s) ∧
    matches (db s') = matches (db s) ∧
    jobs s' = jobs s ∧
    telegram_calls t = [].
Proof.
  intros Hgroup Hcount Hids Hnodup command score k match_id.
  destruct (report_with_right_count s message Hgroup Hcount) as (r & s' & t & Hrun & Hout).
  rewrite Hids in Hout. cbn zeta in Hout. rewrite decide_True in Hout by done.
  destruct Hout as (-> & Hdb & Hjobs & Htg).
  exists s', t. split; [exact Hrun|].
  rewrite Hdb. unfold get_pending_match, add_pending_match. cbn [snd].
  subst command score k match_id. cbn.
  split; [by rewrite next_rowid_fresh|].
  split; [by rewrite lookup_insert_eq|].
  split; [intros i Hi; by rewrite lookup_insert_ne|].
  done.
Qed.

Lemma resolved_report_is_stored_and_raises_witness :
  chat_type triples_report ∈ ["group"; "supergroup"]%string ∧
  mapM (get_user_id_by_tag (db four_players)) (tags_of triples_report)
  = Some [1; 2; 3; 4] ∧
  ∃ s' t,
    run (H := whole_powers_of_ten) (handle_new_result_command triples_report) four_players
    = (Raise TypeError, s', t) ∧
    get_pending_match (db s') 1 = Some ("2vs2"%string, [1; 2], [3; 4], "21-19"%string) ∧
    jobs s' = [] ∧
    telegram_calls t = [].
Proof.
  assert (Hgroup : chat_type triples_report ∈ ["group"; "supergroup"]%string).
  { rewrite !elem_of_cons. by right; left. }
  assert (Hids : mapM (get_user_id_by_tag (db four_players)) (tags_of triples_report)
                 = Some [1; 2; 3; 4]) by (vm_compute; reflexivity).
  assert (Hnodup : NoDup [1; 2; 3; 4]).
  { apply (bool_decide_unpack _). vm_compute. exact I. }
  split; [exact Hgroup|]. split; [exact Hids|].
  destruct (resolved_report_is_stored_and_raises (H := whole_powers_of_ten) four_players
              triples_report [1; 2; 3; 4] Hgroup eq_refl Hids Hnodup)
    as (s' & t & Hrun & _ & Hrow & _ & _ & _ & _ & Hjobs & Hsilent).
  exists s', t. split; [exact Hrun|]. split; [exact Hrow|].
  split; [exact Hjobs|exact Hsilent].
Defined.

(** X19: a report sent in a group with the right number of tags, one of
    which leads to nobody, is rejected with the text that says so: no
    row and no job is written, and the one message sent is that
    reply, without a button. *)
Theorem report_with_unknown_tag_is_rejected `{Libm} (s : Bot) (message : message)
    (tag : string) :
  chat_type message ∈ ["group"; "supergroup"]%string →
  length (tags_of message) = (2 * team_size_of (hd ""%string (parts message)))%nat →
  tag ∈ tags_of message →
  get_user_id_by_tag (db s) tag = None →
  ∃ s' t,
    run (handle_new_result_command message) s = (Ok (Rejected TxtUserNotFound), s', t) ∧
    db s' = db s ∧ jobs s' = jobs s ∧
    telegram_calls t = [Reply (message_id message) TxtUserNotFound None].
Proof.
  intros Hgroup Hcount Htag Hnone.
  destruct (report_with_right_count s message Hgroup Hcount) as (r & s' & t & Hrun & Hout).
  rewrite (mapM_None_2 (get_user_id_by_tag (db s)) (tags_of message)) in Hout.
  2:{ apply Exists_exists. by exists tag. }
  destruct Hout as (-> & Hdb & Hjobs & Htg). by exists s', t.
Qed.

Lemma report_with_unknown_tag_is_rejected_witness :
  chat_type stranger_report ∈ ["group"; "supergroup"]%string ∧
  "eve"%string ∈ tags_of stranger_report ∧
  get_user_id_by_tag (db four_players) "eve" = None ∧
  ∃ s' t,
    run (H := whole_powers_of_ten) (handle_new_result_command stranger_report) four_players
    = (Ok (Rejected TxtUserNotFound), s', t) ∧
    db s' = db four_players.
Proof.
  assert (Hgroup : chat_type stranger_report ∈ ["group"; "supergroup"]%string).
  { rewrite !elem_of_cons. by left. }
  assert (Htag : "eve"%string ∈ tags_of stranger_report).
  { change (tags_of stranger_report) with ["ann"; "eve"]%string.
    rewrite !elem_of_cons. by right; left. }
  assert (Hnone : get_user_id_by_tag (db four_players) "eve" = None)
    by (vm_compute; reflexivity).
  split; [exact Hgroup|]. split; [exact Htag|]. split; [exact Hnone|].
  destruct (report_with_unknown_tag_is_rejected (H := whole_powers_of_ten) four_players
              stranger_report "eve" Hgroup eq_refl Htag Hnone)
    as (s' & t & Hrun & Hdb & _).
  exists s', t. split; [exact Hrun|exact Hdb].
Defined.

(** X20: a report sent in a group with the wrong number of tags is
    rejected before any tag is looked up: with the format text when
    the message has fewer than four words, else with the text for the
    match type of the command word. No row and no job is written and
    the one message sent is that reply. *)
Theorem report_with_wrong_count_is_rejected `{Libm} (s : Bot) (message : message) :
  chat_type message ∈ ["group"; "supergroup"]%string →
  length (tags_of message) ≠ (2 * team_size_of (hd ""%string (parts message)))%nat →
  let why :=
    if decide (length (parts message) < 4)%nat then TxtBadFormat
    else if endswith (hd ""%string (parts message)) "1vs1" then TxtNeedTwoPlayers
    else TxtNeedFourPlayers in
  ∃ s' t,
    run (handle_new_result_command message) s = (Ok (Rejected why), s', t) ∧
    db s' = db s ∧ jobs s' = jobs s ∧
    telegram_calls t = [Reply (message_id message) why None] ∧
    (∀ tag, Made (DbGetUserIdByTag tag) ∉ t).
Proof.
  intros Hgroup Hcount. unfold handle_new_result_command.
  rewrite bool_decide_true by done. cbn [negb].
  rewrite run_bind, run_do. cbn [exec fst snd]. rewrite run_bind.
  assert (Htarget : ∃ s1 t1,
    run (if decide (TARGET_CHAT_ID s = 0) then do (SetTargetChat (chat_id message))
         else Ret tt) s = (Ok tt, s1, t1) ∧ db s1 = db s ∧ jobs s1 = jobs s ∧
    telegram_calls t1 = [] ∧ (∀ tag, Made (DbGetUserIdByTag tag) ∉ t1)).
  { destruct (decide (TARGET_CHAT_ID s = 0)); [rewrite run_do|]; cbn.
    - do 2 eexists. split; [reflexivity|]. repeat split.
      intros tag Hin. apply list_elem_of_singleton in Hin. discriminate.
    - do 2 eexists. split; [reflexivity|]. repeat split.
      intros tag Hin. by apply elem_of_nil in Hin. }
  destruct Htarget as (s1 & t1 & -> & Hdb & Hjobs & Ht1 & Hno).
  assert (Hfin : ∀ why,
    ∃ s' t,
      (let '(r, s2, t2) := run (reject message why) s1 in
       (r, s2, [Made GetTargetChat] ++ t1 ++ t2))
      = (Ok (Rejected why), s', t) ∧
      db s' = db s ∧ jobs s' = jobs s ∧
      telegram_calls t = [Reply (message_id message) why None] ∧
      (∀ tag, Made (DbGetUserIdByTag tag) ∉ t)).
  { intros why. rewrite run_reject. do 2 eexists. split; [reflexivity|].
    split; [done|]. split; [done|]. split.
    - unfold telegram_calls in *. cbn [app omap list_omap].
      rewrite omap_app, Ht1. reflexivity.
    - intros tag Hin. cbn [app] in Hin.
      apply elem_of_cons in Hin as [Heq|Hin]; [discriminate|].
      apply elem_of_app in Hin as [Hin|Hin]; [by apply (Hno tag)|].
      apply list_elem_of_singleton in Hin. discriminate. }
  pose proof (length_tags_of message) as Hlen.
  unfold team_size_of in *. fold (tags_of message).
  destruct (decide (length (parts message) < 4)%nat); [apply Hfin|].
  destruct (endswith (hd ""%string (parts message)) "1vs1").
  - rewrite bool_decide_true by done. apply Hfin.
  - rewrite bool_decide_false by (intros [? _]; discriminate).
    rewrite bool_decide_true by done. apply Hfin.
Qed.

Lemma report_with_wrong_count_is_rejected_witness :
  chat_type (Message "group" 77 505 ["/new_result_2vs2"; "@ann"; "@bob"; "11-9"]%string)
    ∈ ["group"; "supergroup"]%string ∧
  length (tags_of (Message "group" 77 505
                     ["/new_result_2vs2"; "@ann"; "@bob"; "11-9"]%string))
  ≠ (2 * team_size_of "/new_result_2vs2")%nat ∧
  ∃ s' t,
    run (H := whole_powers_of_ten)
      (handle_new_result_command
         (Message "group" 77 505 ["/new_result_2vs2"; "@ann"; "@bob"; "11-9"]%string))
      four_players
    = (Ok (Rejected TxtNeedFourPlayers), s', t) ∧
    db s' = db four_players.
Proof.
  assert (Hgroup :
    chat_type (Message "group" 77 505 ["/new_result_2vs2"; "@ann"; "@bob"; "11-9"]%string)
      ∈ ["group"; "supergroup"]%string).
  { rewrite !elem_of_cons. by left. }
  assert (Hcount :
    length (tags_of (Message "group" 77 505
                       ["/new_result_2vs2"; "@ann"; "@bob"; "11-9"]%string))
    ≠ (2 * team_size_of "/new_result_2vs2")%nat).
  { vm_compute. discriminate. }
  split; [exact Hgroup|]. split; [exact Hcount|].
  destruct (report_with_wrong_count_is_rejected (H := whole_powers_of_ten) four_players
              (Message "group" 77 505 ["/new_result_2vs2"; "@ann"; "@bob"; "11-9"]%string)
              Hgroup Hcount) as (s' & t & Hrun & Hdb & _).
  exists s', t. split; [exact Hrun|exact Hdb].
Defined.


(** ** The chat the bot is bound to *)

Section Target.
Context `{Libm}.

Lemma leaves_target_bind {A B : Type} (p : prog A) (f : A → prog B) :
  leaves_target p → (∀ a, leaves_target (f a)) → leaves_target (p ≫= f).
Proof.
  intros Hp Hf. change (p ≫= f) with (prog_bind f p).
  induction Hp as [a|e|X c k Hc _ IH]; cbn.
  - apply Hf.
  - constructor.
  - constructor; [done|]. exact IH.
Qed.

Lemma leaves_target_do {X : Type} (c : call X) :
  sets_target c = false → leaves_target (do c).
Proof. intros Hc. unfold do. constructor; [done|]. intros x. constructor. Qed.

Lemma leaves_target_do_try {A : Type} (c : call (result A)) :
  sets_target c = false → leaves_target (do_try c).
Proof.
  intros Hc. unfold do_try. apply leaves_target_bind; [by apply leaves_target_do|].
  intros [a|e]; constructor.
Qed.

Lemma leaves_target_reject (message : message) (why : text) :
  leaves_target (reject message why).
Proof.
  unfold reject. apply leaves_target_bind; [by apply leaves_target_do|].
  intros _. constructor.
Qed.

Lemma leaves_target_resolve_tags (tags : list string) (user_ids : gmap string Z) :
  leaves_target (resolve_tags tags user_ids).
Proof.
  revert user_ids. induction tags as [|x tags IH]; intros user_ids; cbn [resolve_tags].
  { constructor. }
  apply leaves_target_bind; [by apply leaves_target_do|].
  intros [uid|]; [apply IH|constructor].
Qed.

Lemma leaves_target_ids_of_tags (user_ids : gmap string Z) (tags : list string) :
  leaves_target (ids_of_tags user_ids tags).
Proof. unfold ids_of_tags. destruct (mapM _ tags); constructor. Qed.

Lemma exec_leaves_target {X : Type} (c : call X) (s : Bot) :
  sets_target c = false → TARGET_CHAT_ID (exec c s).2 = TARGET_CHAT_ID s.
Proof.
  destruct c; cbn; try done; by repeat case_match.
Qed.

Lemma run_leaves_target {A : Type} (p : prog A) (s : Bot) :
  leaves_target p → TARGET_CHAT_ID (run p s).1.2 = TARGET_CHAT_ID s.
Proof.
  intros Hp. revert s. induction Hp as [a|e|X c k Hc _ IH]; intros s; [done|done|].
  cbn [run]. pose proof (exec_leaves_target c s Hc) as Hexec.
  destruct (exec c s) as [x s1]. specialize (IH x s1).
  destruct (run (k x) s1) as [[r s2] t]. cbn in *. congruence.
Qed.

End Target.

(** X21: [TARGET_CHAT_ID] is written by a report only when it is still 0
    and the report comes from a group, and then it becomes the id of
    that chat, whatever becomes of the report; a confirmation and an
    expiry never write it. *)
Theorem target_chat_is_bound_once `{Libm} (s : Bot) :
  (∀ message,
     TARGET_CHAT_ID (state_after (handle_new_result_command message) s)
     = if bool_decide (chat_type message ∈ ["group"; "supergroup"]%string)
          && bool_decide (TARGET_CHAT_ID s = 0)
       then chat_id message else TARGET_CHAT_ID s) ∧
  (∀ match_id user_id chat_id,
     TARGET_CHAT_ID (state_after (process_match_confirmation match_id user_id chat_id) s)
     = TARGET_CHAT_ID s) ∧
  (∀ match_id chat_id original_message_id,
     TARGET_CHAT_ID
       (state_after (delete_pending_match_job match_id chat_id original_message_id) s)
     = TARGET_CHAT_ID s).
Proof.
  split; [|split].
  - intros message. unfold state_after, handle_new_result_command.
    destruct (bool_decide (chat_type message ∈ _)); cbn [negb andb].
    2:{ by rewrite run_reject. }
    rewrite run_bind, run_do. cbn [exec fst snd]. rewrite run_bind.
    assert (Hrest : ∀ s1 t1,
      TARGET_CHAT_ID s1
      = (if bool_decide (TARGET_CHAT_ID s = 0) then chat_id message
         else TARGET_CHAT_ID s) →
      ∀ p : prog submission, leaves_target p →
      TARGET_CHAT_ID
        (let '(r, s2, t2) :=
           (let '(r, s2, t2) := run p s1 in (r, s2, t1 ++ t2)) in
         (r, s2, [Made GetTargetChat] ++ t2)).1.2
      = (if bool_decide (TARGET_CHAT_ID s = 0) then chat_id message
         else TARGET_CHAT_ID s)).
    { intros s1 t1 Hs1 p Hp. pose proof (run_leaves_target p s1 Hp) as Hrun.
      destruct (run p s1) as [[r s2] t2]. cbn in *. congruence. }
    destruct (decide (TARGET_CHAT_ID s = 0)) as [Hzero|Hset].
    + rewrite run_do. cbn [exec fst snd]. apply Hrest.
      { by rewrite bool_decide_true. }
      clear Hrest.
      destruct (decide _); [apply leaves_target_reject|].
      destruct (bool_decide _); [apply leaves_target_reject|].
      destruct (bool_decide _); [apply leaves_target_reject|].
      apply leaves_target_bind; [apply leaves_target_resolve_tags|].
      intros [user_ids|]; [|apply leaves_target_reject].
      apply leaves_target_bind; [apply leaves_target_ids_of_tags|]. intros W.
      apply leaves_target_bind; [apply leaves_target_ids_of_tags|]. intros L.
      destruct (bool_decide _); [apply leaves_target_reject|].
      apply leaves_target_bind; [by apply leaves_target_do|]. intros i.
      apply leaves_target_bind; [by apply leaves_target_do_try|]. intros _.
      apply leaves_target_bind; [by apply leaves_target_do|]. intros _.
      constructor.
    + cbn [run]. apply Hrest.
      { by rewrite bool_decide_false. }
      clear Hrest.
      destruct (decide _); [apply leaves_target_reject|].
      destruct (bool_decide _); [apply leaves_target_reject|].
      destruct (bool_decide _); [apply leaves_target_reject|].
      apply leaves_target_bind; [apply leaves_target_resolve_tags|].
      intros [user_ids|]; [|apply leaves_target_reject].
      apply leaves_target_bind; [apply leaves_target_ids_of_tags|]. intros W.
      apply leaves_target_bind; [apply leaves_target_ids_of_tags|]. intros L.
      destruct (bool_decide _); [apply leaves_target_reject|].
      apply leaves_target_bind; [by apply leaves_target_do|]. intros i.
      apply leaves_target_bind; [by apply leaves_target_do_try|]. intros _.
      apply leaves_target_bind; [by apply leaves_target_do|]. intros _.
      constructor.
  - intros match_id user_id chat_id. unfold state_after.
    destruct (run _ s) as [[r s'] t] eqn:Hrun. cbn.
    by destruct (confirmation_frame _ _ _ _ _ _ _ Hrun) as (_ & _ & _ & _ & ?).
  - intros match_id chat_id original_message_id. unfold state_after.
    rewrite expiry_run. by destruct (pending_matches (db s) !! match_id).
Qed.

(** ** [/stats] *)

Lemma round_is_no_division (x : float) : Py.round x ≠ Raise ZeroDivisionError.
Proof. unfold Py.round. by destruct (Prim2SF x). Qed.

(** X22: [handle_stats] never ends in a division by zero: the share of
    wins is worked out only when the player has a game on record. *)
Theorem stats_never_divide_by_zero (s : Bot) (parts : list string) (from_user : Z)
    (member : option (string * string)) :
  (handle_stats s parts from_user member).1 ≠ Raise ZeroDivisionError.
Proof.
  unfold handle_stats.
  destruct (match match parts with [_; t] => Some (lstrip_at t) | _ => None end with
            | Some (String a t) => (get_user_id_by_tag (db s) (String a t), s)
            | _ => (Some from_user, refresh_player s from_user member)
            end) as [[uid|] s1]; [|done].
  unfold get_player_stats. destruct (players (db s1) !! uid) as [p|]; [|done].
  pose proof (round_is_no_division (p_rating p)) as Hround.
  destruct (Py.round (p_rating p)) as [r|e]; cbn; [|congruence].
  unfold stats_response. case_decide as Hgames; [|done].
  unfold Py.int_truediv. rewrite decide_False by lia.
  by destruct (PrimFloat.is_infinity _).
Qed.

(** X23: [/stats] without a tag, or with a tag that is nothing but
    [@] signs, from a user who has no row is answered that the
    statistics are not available, whatever Telegram knows of the user:
    the registration that comes first writes nothing, and the state
    is as it was. *)
Theorem first_stats_of_a_new_player (s : Bot) (parts : list string) (from_user : Z)
    (member : option (string * string)) :
  match parts with [_; t] => lstrip_at t = ""%string | _ => True end →
  players (db s) !! from_user = None →
  handle_stats s parts from_user member = (Ok StatsUnavailable, s).
Proof.
  intros Hparts Hnew. unfold handle_stats.
  assert (Hsame : refresh_player s from_user member = s).
  { destruct member as [[username full_name]|]; [|done].
    apply update_player_info_keeps_the_state. }
  assert (Hsender :
    match match parts with [_; t] => Some (lstrip_at t) | _ => None end with
    | Some (String a t) => (get_user_id_by_tag (db s) (String a t), s)
    | _ => (Some from_user, refresh_player s from_user member)
    end = (Some from_user, s)).
  { rewrite Hsame. destruct parts as [|c [|t [|x parts]]]; try done. by rewrite Hparts. }
  rewrite Hsender. unfold get_player_stats. by rewrite Hnew.
Qed.

Lemma first_stats_of_a_new_player_witness :
  lstrip_at "@@" = ""%string ∧
  players (db four_players) !! 5 = None ∧
  handle_stats four_players ["/stats"; "@@"]%string 5 (Some ("eve", "Eve"))%string
  = (Ok StatsUnavailable, four_players).
Proof.
  assert (Hstrip : lstrip_at "@@" = ""%string) by reflexivity.
  assert (Hnew : players (db four_players) !! 5 = None) by (vm_compute; reflexivity).
  split; [exact Hstrip|]. split; [exact Hnew|].
  exact (first_stats_of_a_new_player four_players ["/stats"; "@@"]%string 5
           (Some ("eve", "Eve"))%string Hstrip Hnew).
Defined.

(** X24: when the current username of a player is a tag that leads to
    that player, as it is in every state the handlers lead to from a
    consistent one, [/stats] with the username of a player who has a
    game on record is answered with the card of that player: the
    username, the rating rounded as [get_player_rating] rounds it, the
    stored wins and losses, and the share of wins; the state is not
    changed. *)
Theorem stats_by_tag_show_the_card (s : Bot) (command tag : string)
    (from_user uid rating : Z) (member : option (string * string)) (p : player)
    (q : float) :
  usernames_resolve (db s) →
  players (db s) !! uid = Some p →
  lstrip_at tag = p_username p → p_username p ≠ ""%string →
  games p > 0 →
  get_player_rating (db s) uid = Ok rating →
  Py.int_truediv (p_wins p) (games p) = Ok q →
  handle_stats s [command; tag] from_user member
  = (Ok (StatsCard (p_username p) rating (p_wins p) (p_losses p) (q * 100)%float), s).
Proof.
  intros Hres Hp Htag Hname Hgames Hrating Hq.
  unfold handle_stats. rewrite Htag.
  destruct (p_username p) as [|a u] eqn:Hu; [done|].
  pose proof (Hres uid p Hp) as Hlookup. rewrite Hu in Hlookup.
  unfold get_user_id_by_tag. rewrite Hlookup.
  unfold get_player_stats, get_player_rating in *. rewrite Hp in *.
  rewrite Hrating, Hu. cbn [mbind result_bind mret result_ret].
  unfold stats_response, games in *. rewrite decide_True by lia.
  by rewrite Hq.
Qed.

Lemma stats_by_tag_show_the_card_witness :
  usernames_resolve
    (db (state_after (H := whole_powers_of_ten) (process_match_confirmation 1 3 77)
           doubles_pending)) ∧
  players
    (db (state_after (H := whole_powers_of_ten) (process_match_confirmation 1 3 77)
           doubles_pending)) !! 1
  = Some (adjust 8 (new_player "ann" "Ann")) ∧
  (handle_stats
     (state_after (H := whole_powers_of_ten) (process_match_confirmation 1 3 77)
        doubles_pending)
     ["/stats"; "@ann"]%string 2 None).1
  = Ok (StatsCard "ann" 1008 1 0 100%float).
Proof.
  assert (Hres : usernames_resolve
            (db (state_after (H := whole_powers_of_ten)
                   (process_match_confirmation 1 3 77) doubles_pending))).
  { refine (proj1 (proj2 (follows_consistent (H := whole_powers_of_ten) four_players _ _
                            four_players_consistent))).
    eapply rtc_r; [exact doubles_pending_follows|]. constructor. }
  assert (Hp : players
                 (db (state_after (H := whole_powers_of_ten)
                        (process_match_confirmation 1 3 77) doubles_pending)) !! 1
               = Some (adjust 8 (new_player "ann" "Ann")))
    by (vm_compute; reflexivity).
  split; [exact Hres|]. split; [exact Hp|].
  rewrite (stats_by_tag_show_the_card _ "/stats" "@ann" 2 1 1008
             None (adjust 8 (new_player "ann" "Ann")) 1%float Hres Hp).
  - reflexivity.
  - reflexivity.
  - discriminate.
  - reflexivity.
  - vm_compute. reflexivity.
  - vm_compute. reflexivity.
Defined.
